(** * steam-bot-discord: presence pipeline, link store and session login

    A shallow embedding of the bot's JavaScript sources together with the
    properties its specification states about them: the database manager
    (src/database.js), the Steam and Discord managers
    (src/steam-manager.js, src/discord-manager.js), the bot class
    [SteamDiscordBot] of the entry point (index.js) and the [/steam]
    command (commands/steam.js).

    Conventions.
    - A JavaScript string is its sequence of UTF-16 code units, [list N].
      [js "..."] writes an ASCII literal.
    - Unix time (seconds) and SQLite integers are [Z].
    - The two SQLite tables that are scanned ([SELECT *], lookups through a
      second unique column) are lists of rows in rowid order; the two tables
      only ever read by primary key are [gmap]s.
    - The clock is an input: every function that reads the time
      ([Date.now()], [strftime('%s','now')]) takes the value it reads. *)

From Stdlib Require Import ZArith NArith Ascii String.
From stdpp Require Import base decidable option list gmap.

Open Scope Z_scope.

Abbreviation jsstring := (list N).

(** An ASCII literal as a JavaScript string. *)
Definition js (s : string) : jsstring :=
  map N_of_ascii (list_ascii_of_string s).

(** ** JavaScript string primitives used by the sources *)

Module JsString.

(** WhiteSpace and LineTerminator code units, the ones
    [String.prototype.trim] strips. *)
Definition isWhiteSpace (c : N) : bool :=
  ((9 <=? c) && (c <=? 13)          (* TAB LF VT FF CR *)
   || (c =? 32) || (c =? 160)       (* SP NBSP *)
   || (c =? 5760)                   (* U+1680 *)
   || ((8192 <=? c) && (c <=? 8202)) (* U+2000 .. U+200A *)
   || (c =? 8232) || (c =? 8233)    (* LS PS *)
   || (c =? 8239) || (c =? 8287)    (* U+202F U+205F *)
   || (c =? 12288) || (c =? 65279)  (* U+3000 BOM *))%N.

(** The regular expression class [\d]: ASCII digits only. *)
Definition isDigit (c : N) : bool := ((48 <=? c) && (c <=? 57))%N.

(** The class [[^\/]]. *)
Definition notSlash (c : N) : bool := negb (c =? 47)%N.

Fixpoint trimStart (s : jsstring) : jsstring :=
  match s with
  | [] => []
  | c :: r => if isWhiteSpace c then trimStart r else s
  end.

Definition trimEnd (s : jsstring) : jsstring := rev (trimStart (rev s)).

Definition trim (s : jsstring) : jsstring := trimEnd (trimStart s).

(** [stripPrefix p s] is the rest of [s] after the literal [p], when [s]
    starts with it. *)
Fixpoint stripPrefix (p s : jsstring) : option jsstring :=
  match p, s with
  | [], _ => Some s
  | _ :: _, [] => None
  | a :: p', b :: s' => if (a =? b)%N then stripPrefix p' s' else None
  end.

(** Longest prefix whose code units are all in the class: a greedy
    [cls*]. *)
Fixpoint takeWhile (cls : N → bool) (s : jsstring) : jsstring :=
  match s with
  | [] => []
  | c :: r => if cls c then c :: takeWhile cls r else []
  end.

(** The pattern [lit(cls+)] tried at the start of [s]: the capture. *)
Definition matchHere (lit : jsstring) (cls : N → bool) (s : jsstring)
  : option jsstring :=
  match stripPrefix lit s with
  | None => None
  | Some rest =>
      match takeWhile cls rest with
      | [] => None
      | cap => Some cap
      end
  end.

(** [s.match(/lit(cls+)/)]: the capture of the leftmost match. *)
Fixpoint matchCapture (lit : jsstring) (cls : N → bool) (s : jsstring)
  : option jsstring :=
  match matchHere lit cls s with
  | Some cap => Some cap
  | None =>
      match s with
      | [] => None
      | _ :: s' => matchCapture lit cls s'
      end
  end.

(** JavaScript truthiness of a string that may be [undefined] or [null]:
    only a non-empty string is truthy. *)
Definition truthy (o : option jsstring) : option jsstring :=
  match o with
  | Some (c :: r) => Some (c :: r)
  | _ => None
  end.

End JsString.

(** ** commands/steam.js: the identifier parser *)

Inductive parse_error :=
| CustomUrlNotSupported   (* 'Custom URLs not supported. ...' *)
| InvalidFormat.          (* 'Invalid Steam identifier format' *)

(** [/^7656119\d{10}$/.test(s)] *)
Definition isSteamId64 (s : jsstring) : bool :=
  match JsString.stripPrefix (js "7656119") s with
  | None => false
  | Some rest => (length rest =? 10)%nat && forallb JsString.isDigit rest
  end.

(** [s.match(/steamcommunity\.com\/profiles\/(\d+)/)], capture 1 *)
Definition profileMatch (s : jsstring) : option jsstring :=
  JsString.matchCapture (js "steamcommunity.com/profiles/") JsString.isDigit s.

(** [s.match(/steamcommunity\.com\/id\/([^\/]+)/)], capture 1 *)
Definition customMatch (s : jsstring) : option jsstring :=
  JsString.matchCapture (js "steamcommunity.com/id/") JsString.notSlash s.

(** [inl e] is [throw new Error(e)], [inr id] is [return id]. *)
Definition parseSteamIdentifier (identifier : jsstring)
  : parse_error + jsstring :=
  let identifier := JsString.trim identifier in
  if isSteamId64 identifier then inr identifier
  else
    match profileMatch identifier with
    | Some digits => inr digits
    | None =>
        match customMatch identifier with
        | Some _ => inl CustomUrlNotSupported
        | None => inl InvalidFormat
        end
    end.

(** A non-empty run of ASCII digits. *)
Definition numeric (s : jsstring) : Prop :=
  s ≠ [] ∧ Forall (λ c, JsString.isDigit c = true) s.

(** Exactly seventeen digits that begin with 7656119. *)
Definition steamId64Shape (s : jsstring) : Prop :=
  ∃ rest, s = js "7656119" ++ rest ∧ length rest = 10%nat
          ∧ Forall (λ c, JsString.isDigit c = true) rest.

(** What the pattern [lit(cls+)] captures in [s], in the words of the
    regular-expression semantics: [cap] is the longest run of the class
    that follows the literal at the leftmost place of [s] where the
    literal is followed by a unit of the class. *)
Definition firstCapture (lit : jsstring) (cls : N → bool) (s cap : jsstring)
  : Prop :=
  ∃ pre post,
    s = pre ++ lit ++ cap ++ post
    ∧ cap ≠ [] ∧ Forall (λ c, cls c = true) cap
    ∧ (∀ c post', post = c :: post' → cls c = false)
    ∧ ∀ pre' c post',
        s = pre' ++ lit ++ c :: post' → cls c = true →
        (length pre ≤ length pre')%nat.


(** ** The presence snapshot handed from the session to the pipeline

    The object literal built in src/steam-manager.js, 'user' event. *)
Record presenceData := {
  steamId : jsstring;
  personaName : jsstring;
  personaState : Z;
  gameId : option jsstring;
  gameName : option jsstring;
  richPresence : list (jsstring * jsstring);
}.

(** ** src/database.js *)

(** Rows of [user_mappings]: [discord_id] is the primary key and
    [steam_id] is [UNIQUE]. *)
Module UserMapping.
Record row := {
  discord_id : jsstring;
  steam_id : jsstring;
  linked_at : Z;
  updated_at : Z;
}.
End UserMapping.

(** Rows of [server_configs], primary key [guild_id]. *)
Module ServerConfig.
Record row := {
  guild_id : jsstring;
  update_channel_id : jsstring;
  created_at : Z;
  updated_at : Z;
}.
End ServerConfig.

(** Rows of [rate_limits]; the primary key [steam_id] is the map key. *)
Module RateLimit.
Record row := {
  last_update : Z;
  update_count : Z;
}.
End RateLimit.

(** Rows of [steam_cache]; the primary key [steam_id] is the map key. *)
Module SteamCache.
Record row := {
  persona_name : jsstring;
  game_name : option jsstring;
  game_id : option jsstring;
  persona_state : Z;
  last_updated : Z;
}.
End SteamCache.

Module DatabaseManager.

Record t := {
  user_mappings : list UserMapping.row;
  server_configs : list ServerConfig.row;
  rate_limits : gmap jsstring RateLimit.row;
  steam_cache : gmap jsstring SteamCache.row;
}.

Definition with_user_mappings (db : t) (rows : list UserMapping.row) : t :=
  {| user_mappings := rows;
     server_configs := server_configs db;
     rate_limits := rate_limits db;
     steam_cache := steam_cache db |}.

Definition with_server_configs (db : t) (rows : list ServerConfig.row) : t :=
  {| user_mappings := user_mappings db;
     server_configs := rows;
     rate_limits := rate_limits db;
     steam_cache := steam_cache db |}.

Definition with_rate_limits (db : t) (m : gmap jsstring RateLimit.row) : t :=
  {| user_mappings := user_mappings db;
     server_configs := server_configs db;
     rate_limits := m;
     steam_cache := steam_cache db |}.

Definition with_steam_cache (db : t) (m : gmap jsstring SteamCache.row) : t :=
  {| user_mappings := user_mappings db;
     server_configs := server_configs db;
     rate_limits := rate_limits db;
     steam_cache := m |}.

(** [INSERT OR REPLACE INTO user_mappings (discord_id, steam_id,
    updated_at)]: every row that conflicts on the primary key or on the
    unique [steam_id] is deleted, then the new row is appended;
    [linked_at] takes its default, the current time. *)
Definition linkUser (db : t) (discordId steamId : jsstring) (now : Z) : t :=
  with_user_mappings db
    (filter (λ r, UserMapping.discord_id r ≠ discordId
                  ∧ UserMapping.steam_id r ≠ steamId) (user_mappings db)
     ++ [ {| UserMapping.discord_id := discordId;
             UserMapping.steam_id := steamId;
             UserMapping.linked_at := now;
             UserMapping.updated_at := now |} ]).

(** [DELETE FROM user_mappings WHERE discord_id = ?] *)
Definition unlinkUser (db : t) (discordId : jsstring) : t :=
  with_user_mappings db
    (filter (λ r, UserMapping.discord_id r ≠ discordId) (user_mappings db)).

(** [SELECT * FROM user_mappings WHERE discord_id = ?], first row *)
Definition getUserMapping (db : t) (discordId : jsstring)
  : option UserMapping.row :=
  List.find (λ r, bool_decide (UserMapping.discord_id r = discordId))
    (user_mappings db).

(** [SELECT * FROM user_mappings WHERE steam_id = ?], first row *)
Definition getMappingBySteamId (db : t) (steamId : jsstring)
  : option UserMapping.row :=
  List.find (λ r, bool_decide (UserMapping.steam_id r = steamId))
    (user_mappings db).

Definition getAllMappings (db : t) : list UserMapping.row :=
  user_mappings db.

(** [INSERT OR REPLACE INTO server_configs (guild_id, update_channel_id,
    updated_at)] *)
Definition setUpdateChannel (db : t) (guildId channelId : jsstring)
    (now : Z) : t :=
  with_server_configs db
    (filter (λ r, ServerConfig.guild_id r ≠ guildId) (server_configs db)
     ++ [ {| ServerConfig.guild_id := guildId;
             ServerConfig.update_channel_id := channelId;
             ServerConfig.created_at := now;
             ServerConfig.updated_at := now |} ]).

Definition getUpdateChannel (db : t) (guildId : jsstring)
  : option ServerConfig.row :=
  List.find (λ r, bool_decide (ServerConfig.guild_id r = guildId))
    (server_configs db).

Definition getAllServerConfigs (db : t) : list ServerConfig.row :=
  server_configs db.

(** [now] is [Math.floor(Date.now() / 1000)]. *)
Definition canUpdate (db : t) (steamId : jsstring) (cooldownSeconds : Z)
    (now : Z) : bool :=
  match rate_limits db !! steamId with
  | None => true
  | Some record => cooldownSeconds <=? now - RateLimit.last_update record
  end.

(** [INSERT OR REPLACE INTO rate_limits ... VALUES (?, ?,
    COALESCE((SELECT update_count ...), 0) + 1)] *)
Definition recordUpdate (db : t) (steamId : jsstring) (now : Z) : t :=
  with_rate_limits db
    (<[steamId :=
         {| RateLimit.last_update := now;
            RateLimit.update_count :=
              default 0 (RateLimit.update_count <$> rate_limits db !! steamId)
              + 1 |}]> (rate_limits db)).

(** [INSERT OR REPLACE INTO steam_cache ...]; [now] is
    [strftime('%s', 'now')]. *)
Definition updateSteamCache (db : t) (steamId : jsstring)
    (data : presenceData) (now : Z) : t :=
  with_steam_cache db
    (<[steamId :=
         {| SteamCache.persona_name := personaName data;
            SteamCache.game_name := gameName data;
            SteamCache.game_id := gameId data;
            SteamCache.persona_state := personaState data;
            SteamCache.last_updated := now |}]> (steam_cache db)).

Definition getSteamCache (db : t) (steamId : jsstring)
  : option SteamCache.row :=
  steam_cache db !! steamId.

(** What the schema guarantees of [user_mappings]: no two rows share a
    [discord_id] (primary key) or a [steam_id] ([UNIQUE]). *)
Definition bijective (db : t) : Prop :=
  NoDup (UserMapping.discord_id <$> user_mappings db)
  ∧ NoDup (UserMapping.steam_id <$> user_mappings db).

End DatabaseManager.

(** ** Effects and the handler monad

    The handlers run against a world made of the database, the bot's
    [isShuttingDown] flag and the trace of what they did to the outside:
    log calls, statements run on the database, calls on the Discord and
    Steam clients, process exit.  A computation either returns or throws. *)

Inductive level := debug | info | warn | error.

Inductive table :=
| tbl_user_mappings | tbl_server_configs | tbl_rate_limits | tbl_steam_cache.

Record logOnOptions := {
  accountName : jsstring;
  password : jsstring;
  twoFactorCode : option jsstring;
}.

Inductive effect :=
| Log (lvl : level) (message : string)
| StmtRun (tbl : table) (key : jsstring)
| ChannelsFetch (channelId : jsstring)
| ChannelSend (channelId : jsstring) (data : presenceData)
    (previousState : option SteamCache.row)
| ClientDestroy
| LogOn (opts : logOnOptions)
| SteamGuardCallback (code : jsstring)
| SetPersonaOnline
| GamesPlayed
| LogOff
| DbClose
| ProcessExit (code : Z).

(** A thrown JavaScript value. *)
Inductive exn := JsError (name : string) (message : string).

Record world := {
  w_db : DatabaseManager.t;
  w_isShuttingDown : bool;
  w_trace : list effect;
}.

Definition M (A : Type) : Type := world → (exn + A) * world.

Definition ret {A} (a : A) : M A := λ w, (inr a, w).

Definition bind {A B} (m : M A) (f : A → M B) : M B := λ w,
  match m w with
  | (inl e, w') => (inl e, w')
  | (inr a, w') => f a w'
  end.

Notation "'let*' x ':=' m 'in' k" := (bind m (λ x, k))
  (at level 10, x name, m at level 100, k at level 200).
Notation "m '>>' k" := (bind m (λ _, k))
  (at level 100, k at level 200, right associativity).

Definition throw {A} (e : exn) : M A := λ w, (inl e, w).

(** [try { m } catch (error) { h error }] *)
Definition try_catch {A} (m : M A) (h : exn → M A) : M A := λ w,
  match m w with
  | (inl e, w') => h e w'
  | (inr a, w') => (inr a, w')
  end.

Definition emit (e : effect) : M unit := λ w,
  (inr (), {| w_db := w_db w;
              w_isShuttingDown := w_isShuttingDown w;
              w_trace := w_trace w ++ [e] |}).

(** A query: [stmt.get] or [stmt.all]. *)
Definition query {A} (f : DatabaseManager.t → A) : M A := λ w,
  (inr (f (w_db w)), w).

(** A statement that writes: [stmt.run], committed when it returns. *)
Definition run (tbl : table) (key : jsstring)
    (f : DatabaseManager.t → DatabaseManager.t) : M unit := λ w,
  (inr (), {| w_db := f (w_db w);
              w_isShuttingDown := w_isShuttingDown w;
              w_trace := w_trace w ++ [StmtRun tbl key] |}).

Definition getShuttingDown : M bool := λ w, (inr (w_isShuttingDown w), w).

Definition setShuttingDown (b : bool) : M unit := λ w,
  (inr (), {| w_db := w_db w; w_isShuttingDown := b; w_trace := w_trace w |}).

(** A world with nothing done yet. *)
Definition initial (db : DatabaseManager.t) : world :=
  {| w_db := db; w_isShuttingDown := false; w_trace := [] |}.

(** The world a computation leaves behind. *)
Definition exec {A} (m : M A) (w : world) : world := snd (m w).

(** ** src/discord-manager.js *)

Module DiscordManager.

Inductive fetched :=
| FetchRejects                       (* the promise rejects *)
| NoChannel                          (* resolves to null *)
| Channel (isTextBased : bool).

(** *** [createPresenceEmbed] *)

(** What is set on the [EmbedBuilder]: colour, title, description and the
    value of the 'Steam Profile' field. *)
Record embed := {
  color : Z;
  title : jsstring;
  description : jsstring;
  profileField : jsstring;
}.

(** The object literal [stateNames], looked up by the state number. *)
Definition stateNames (state : Z) : option jsstring :=
  match state with
  | 0 => Some (js "Offline")
  | 1 => Some (js "Online")
  | 2 => Some (js "Busy")
  | 3 => Some (js "Away")
  | 4 => Some (js "Snooze")
  | 5 => Some (js "Looking to trade")
  | 6 => Some (js "Looking to play")
  | _ => None
  end.

(** The object literal [stateColors]. *)
Definition stateColors (state : Z) : option Z :=
  match state with
  | 0 => Some 0x898989
  | 1 => Some 0x57cbde
  | 2 => Some 0xc03030
  | 3 => Some 0xc0c030
  | 4 | 5 | 6 => Some 0x5c7e10
  | _ => None
  end.

(** The second argument as the function reads it: the two properties it
    looks up, [personaState] and [gameName], each possibly missing. *)
Record previousView := {
  view_personaState : option Z;
  view_gameName : option jsstring;
}.

(** The object [handlePresenceChange] passes is a [steam_cache] row. Its
    properties carry the column names ([persona_state], [game_name]), so
    both lookups give [undefined]. *)
Definition viewOfRow (row : SteamCache.row) : previousView :=
  {| view_personaState := None; view_gameName := None |}.

Definition createPresenceEmbed (data : presenceData)
    (previousState : option previousView) : embed :=
  let currentState := default (js "Unknown") (stateNames (personaState data)) in
  let previousStateName :=
    match previousState with
    | Some prev =>
        Some (default (js "Unknown")
                (match view_personaState prev with
                 | Some state => stateNames state
                 | None => None
                 end))
    | None => None
    end in
  let previousGame :=
    match previousState with
    | Some prev => JsString.truthy (view_gameName prev)
    | None => None
    end in
  let description := js "**Status:** " ++ currentState in
  let description :=
    match JsString.truthy previousStateName with
    | Some name =>
        if negb (bool_decide (name = currentState))
        then description ++ js " (was " ++ name ++ js ")"
        else description
    | None => description
    end in
  let description :=
    match JsString.truthy (gameName data) with
    | Some game =>
        let description := description ++ [10%N] ++ js "**Playing:** " ++ game in
        match previousGame with
        | Some before =>
            if negb (bool_decide (before = game))
            then description ++ [10%N] ++ js "**Previously:** " ++ before
            else description
        | None => description
        end
    | None =>
        match previousGame with
        | Some before =>
            description ++ [10%N] ++ js "**Stopped playing:** " ++ before
        | None => description
        end
    end in
  {| color := default 0 (stateColors (personaState data));
     title := personaName data ++ js "'s Steam Status";
     description := description;
     profileField :=
       js "[View Profile](https://steamcommunity.com/profiles/"
       ++ steamId data ++ js ")" |}.

(** discord.js as the manager sees it: what [client.channels.fetch(id)]
    gives, whether the setters of [EmbedBuilder] accept what
    [createPresenceEmbed] sets (each validates its argument and throws on
    a value Discord would refuse, such as a title of more than 256 code
    units), whether [channel.send] on that channel resolves, whether
    [client.destroy()] resolves. *)
Record t := {
  channels_fetch : jsstring → fetched;
  embed_accepted : embed → bool;
  send_resolves : jsstring → bool;
  destroy_resolves : bool;
}.

(** The embed is built inside the [try], after the channel has been found
    to be text-based and before [channel.send]; a setter that throws is
    caught like a failed fetch or send. The message handed to
    [channel.send] is kept as the snapshot and the previous row it is
    rendered from. *)
Definition sendPresenceUpdate (dm : t) (channelId : jsstring)
    (data : presenceData) (previousState : option SteamCache.row) : M bool :=
  try_catch
    (emit (ChannelsFetch channelId) >>
     match channels_fetch dm channelId with
     | FetchRejects => throw (JsError "DiscordAPIError" "fetch")
     | NoChannel | Channel false =>
         emit (Log warn "Channel not found or not text-based") >>
         ret false
     | Channel true =>
         let built := createPresenceEmbed data (viewOfRow <$> previousState) in
         if negb (embed_accepted dm built)
         then throw (JsError "ExpectedConstraintError" "embed")
         else
           emit (ChannelSend channelId data previousState) >>
           if send_resolves dm channelId then ret true
           else throw (JsError "DiscordAPIError" "send")
     end)
    (λ _, emit (Log error "Error sending presence update to channel") >>
          ret false).

Definition destroy (dm : t) : M unit :=
  emit ClientDestroy >>
  if destroy_resolves dm then emit (Log info "Discord client destroyed")
  else throw (JsError "Error" "destroy").

End DiscordManager.

(** ** src/steam-manager.js *)

Module SteamManager.

(** [SteamUser.EFriendRelationship] *)
Inductive EFriendRelationship :=
| RelNone | Blocked | RequestRecipient | Friend | RequestInitiator
| Ignored | IgnoredFriend | SuggestedFriend.

(** [SteamUser.EResult], the values the login distinguishes. *)
Inductive EResult :=
| InvalidPassword | AccountLogonDenied | TwoFactorCodeMismatch
| OtherResult (code : Z).

Record config := {
  username : jsstring;
  cfg_password : jsstring;
  sharedSecret : option jsstring;     (* STEAM_SHARED_SECRET *)
  cfg_twoFactorCode : option jsstring; (* STEAM_2FA_CODE *)
}.

Record t := {
  cfg : config;
  friendsCache : gset jsstring;
  isLoggedIn : bool;
}.

Definition with_friendsCache (sm : t) (s : gset jsstring) : t :=
  {| cfg := cfg sm; friendsCache := s; isLoggedIn := isLoggedIn sm |}.

Definition with_isLoggedIn (sm : t) (b : bool) : t :=
  {| cfg := cfg sm; friendsCache := friendsCache sm; isLoggedIn := b |}.

(** The persona object of a 'user' event; a missing property is [None]. *)
Record user := {
  player_name : option jsstring;
  persona_state : option Z;
  gameid : option jsstring;
  game_name : option jsstring;
  rich_presence : option (list (jsstring * jsstring));
}.

Definition isFriend (sm : t) (steamId : jsstring) : bool :=
  bool_decide (steamId ∈ friendsCache sm).

Definition getFriendsCount (sm : t) : nat := size (friendsCache sm).

(** [updateFriendsCache]: the cache is cleared and refilled from
    [client.myFriends]. *)
Definition updateFriendsCache (sm : t)
    (myFriends : list (jsstring * EFriendRelationship)) : t :=
  with_friendsCache sm
    (foldl (λ acc '(steamIdObj, relationship),
              match relationship with
              | Friend => acc ∪ {[ steamIdObj ]}
              | _ => acc
              end) ∅ myFriends).

(** The 'friendRelationship' listener. *)
Definition onFriendRelationship (sm : t) (steamIdStr : jsstring)
    (relationship : EFriendRelationship) : t :=
  match relationship with
  | Friend => with_friendsCache sm (friendsCache sm ∪ {[ steamIdStr ]})
  | RelNone => with_friendsCache sm (friendsCache sm ∖ {[ steamIdStr ]})
  | _ => sm
  end.

(** The 'disconnected' listener. *)
Definition onDisconnected (sm : t) : t := with_isLoggedIn sm false.

(** The 'user' listener: an event for an account outside the friends
    cache returns at once; otherwise the snapshot is built and handed to
    the registered [presenceChange] handler. *)
Definition onUser (sm : t) (presenceChange : option (presenceData → M unit))
    (steamIdStr : jsstring) (u : user) : M unit :=
  if negb (bool_decide (steamIdStr ∈ friendsCache sm)) then ret ()
  else
    let data :=
      {| steamId := steamIdStr;
         personaName := default (js "Unknown") (JsString.truthy (player_name u));
         personaState := default 0 (persona_state u);
         gameId := JsString.truthy (gameid u);
         gameName := JsString.truthy (game_name u);
         richPresence := default [] (rich_presence u) |} in
    emit (Log debug "Presence update for") >>
    match presenceChange with
    | Some handler => handler data
    | None => ret ()
    end.

Definition logout (sm : t) : M unit :=
  if isLoggedIn sm then
    emit LogOff >> emit (Log info "Logged out of Steam")
  else ret ().

(** *** [login]

    The promise returned by [login] and the three listeners it installs.
    While the promise is pending the listeners are attached; [cleanup]
    removes them when it settles. *)

Inductive login_error :=
| ClientError (eresult : EResult)
| SteamGuardCodeRequired.  (* 'SteamGuard code required but no shared
                              secret or code provided. ...' *)

Inductive promise := Pending | Resolved | Rejected (err : login_error).

Inductive client_event :=
| loggedOn
| clientError (eresult : EResult)
| steamGuard (domain : option jsstring) (lastCodeWrong : bool).

Section Login.

(** [SteamTotp.generateAuthCode(secret)] of the steam-totp package: the
    code for a shared secret at the time of the call. *)
Variable generateAuthCode : jsstring → Z → jsstring.

(** The synchronous part of [login()], called at time [now]: the
    options are built and [client.logOn] is called. *)
Definition login (sm : t) (now : Z) : promise * list effect :=
  let c := cfg sm in
  let '(code, logs) :=
    match JsString.truthy (sharedSecret c) with
    | Some secret =>
        (Some (generateAuthCode secret now),
         [Log info "Generated 2FA code from shared secret"])
    | None =>
        match JsString.truthy (cfg_twoFactorCode c) with
        | Some provided => (Some provided, [Log info "Using provided 2FA code"])
        | None => (None, [])
        end
    end in
  (Pending,
   logs ++ [Log info "Attempting to log into Steam...";
            LogOn {| accountName := username c;
                     password := cfg_password c;
                     twoFactorCode := code |}]).

Definition onLoggedOn (sm : t) : t * promise * list effect :=
  (with_isLoggedIn sm true, Resolved,
   [Log info "Logged into Steam as"; SetPersonaOnline; GamesPlayed]).

Definition onError (sm : t) (eresult : EResult)
  : t * promise * list effect :=
  (sm, Rejected (ClientError eresult),
   Log error "Steam login error:" ::
   match eresult with
   | InvalidPassword => [Log error "Invalid Steam credentials."]
   | AccountLogonDenied | TwoFactorCodeMismatch =>
       [Log error "2FA required or code invalid.";
        Log error "To get STEAM_SHARED_SECRET, use a Steam Desktop Authenticator tool"]
   | OtherResult _ => []
   end).

(** The 'steamGuard' listener, called at time [now]. *)
Definition onSteamGuard (sm : t) (now : Z) (lastCodeWrong : bool)
  : t * promise * list effect :=
  let logs :=
    if lastCodeWrong then [Log error "Previous 2FA code was incorrect"]
    else [] in
  match JsString.truthy (sharedSecret (cfg sm)) with
  | Some secret =>
      let code := generateAuthCode secret now in
      (sm, Pending,
       logs ++ [Log info "Generated new 2FA code from shared secret";
                SteamGuardCallback code])
  | None => (sm, Rejected SteamGuardCodeRequired, logs)
  end.

(** One client event at time [now] while [login]'s listeners may be
    attached. A settled promise has no listeners left. *)
Definition onClientEvent (st : t * promise) (now : Z) (ev : client_event)
  : t * promise * list effect :=
  match snd st with
  | Pending =>
      match ev with
      | loggedOn => onLoggedOn (fst st)
      | clientError eresult => onError (fst st) eresult
      | steamGuard _ lastCodeWrong => onSteamGuard (fst st) now lastCodeWrong
      end
  | settled => (fst st, settled, [])
  end.

(** A whole attempt: [login()] at [start], then the timed events. *)
Fixpoint deliver (st : t * promise) (events : list (Z * client_event))
  : t * promise * list effect :=
  match events with
  | [] => (st, [])
  | (now, ev) :: rest =>
      let '(st', out) := onClientEvent st now ev in
      let '(st'', out') := deliver st' rest in
      (st'', out ++ out')
  end.

Definition attempt (sm : t) (start : Z) (events : list (Z * client_event))
  : t * promise * list effect :=
  let '(p, out) := login sm start in
  let '(st, out') := deliver (sm, p) events in
  (st, out ++ out').

End Login.

(** The codes handed to the Steam client, in order: the one in the
    [logOn] options and the ones passed to a 'steamGuard' callback. *)
Definition codesSubmitted (tr : list effect) : list jsstring :=
  omap (λ e, match e with
             | LogOn opts => twoFactorCode opts
             | SteamGuardCallback code => Some code
             | _ => None
             end) tr.

(** The 'friendsList' listener: the cache is rebuilt, then the registered
    [friendsListLoaded] handler is called with it. The manager with the
    new cache is returned. *)
Definition onFriendsList (sm : t)
    (myFriends : list (jsstring * EFriendRelationship))
    (friendsListLoaded : option (gset jsstring → M unit)) : M t :=
  emit (Log info "Friends list received") >>
  let sm' := updateFriendsCache sm myFriends in
  emit (Log info "Cached friends") >>
  match friendsListLoaded with
  | Some handler => handler (friendsCache sm')
  | None => ret ()
  end >>
  ret sm'.

End SteamManager.

(** ** index.js: the bot *)

Module SteamDiscordBot.

(** [this.steamManager] and [this.discordManager]; the constructor sets
    both to [null] and [start()] fills them in, the Discord manager after
    the presence handler has been registered.  [this.db] is created before
    the handler is registered and lives in the world. *)
Record t := {
  steamManager : option SteamManager.t;
  discordManager : option DiscordManager.t;
}.

(** The three times one run of the presence handler may read: in
    [canUpdate], in [updateSteamCache] and in [recordUpdate]. *)
Record clock := {
  at_canUpdate : Z;
  at_updateSteamCache : Z;
  at_recordUpdate : Z;
}.

(** A run that happens within the second [now]. *)
Definition at_time (now : Z) : clock :=
  {| at_canUpdate := now; at_updateSteamCache := now; at_recordUpdate := now |}.

(** The test of lines 191-198: there is a cached row and neither
    [persona_state] nor [game_name] differs ([!==]) from the snapshot. *)
Definition noMeaningfulChange (previousState : option SteamCache.row)
    (data : presenceData) : bool :=
  match previousState with
  | None => false
  | Some prev =>
      let stateChanged :=
        negb (bool_decide (SteamCache.persona_state prev = personaState data)) in
      let gameChanged :=
        negb (bool_decide (SteamCache.game_name prev = gameName data)) in
      negb stateChanged && negb gameChanged
  end.

(** The [for (const config of serverConfigs)] loop; each turn
    dereferences [this.discordManager]. *)
Fixpoint fanout (bot : t) (serverConfigs : list ServerConfig.row)
    (data : presenceData) (previousState : option SteamCache.row)
    (sentCount : nat) : M nat :=
  match serverConfigs with
  | [] => ret sentCount
  | config :: rest =>
      match discordManager bot with
      | None =>
          throw (JsError "TypeError"
                   "Cannot read properties of null (reading 'sendPresenceUpdate')")
      | Some dm =>
          let* success := DiscordManager.sendPresenceUpdate dm
                      (ServerConfig.update_channel_id config) data previousState in
          fanout bot rest data previousState
            (if success then S sentCount else sentCount)
      end
  end.

(** The [try] block of [handlePresenceChange]. *)
Definition handlePresenceChange_try (bot : t) (clk : clock)
    (data : presenceData) : M unit :=
  let* mapping :=
    query (λ db, DatabaseManager.getMappingBySteamId db (steamId data)) in
  match mapping with
  | None => ret ()
  | Some _ =>
      let* previousState :=
        query (λ db, DatabaseManager.getSteamCache db (steamId data)) in
      if noMeaningfulChange previousState data then ret ()
      else
        let* allowed :=
          query (λ db, DatabaseManager.canUpdate db (steamId data)
                         300 (at_canUpdate clk)) in
        if negb allowed then
          emit (Log debug "Rate limited update for") >>
          run tbl_steam_cache (steamId data)
            (λ db, DatabaseManager.updateSteamCache db (steamId data) data
                     (at_updateSteamCache clk))
        else
          run tbl_steam_cache (steamId data)
            (λ db, DatabaseManager.updateSteamCache db (steamId data) data
                     (at_updateSteamCache clk)) >>
          run tbl_rate_limits (steamId data)
            (λ db, DatabaseManager.recordUpdate db (steamId data)
                     (at_recordUpdate clk)) >>
          let* serverConfigs := query DatabaseManager.getAllServerConfigs in
          let* sentCount := fanout bot serverConfigs data previousState 0%nat in
          if (0 <? sentCount)%nat then emit (Log info "Sent presence update for")
          else ret ()
  end.

(** [try { ... } catch (error) { this.logger.error(...) }] *)
Definition handlePresenceChange (bot : t) (clk : clock) (data : presenceData)
  : M unit :=
  try_catch (handlePresenceChange_try bot clk data)
    (λ _, emit (Log error "Error handling presence change:")).

(** A 'user' event of the Steam client, with [handlePresenceChange]
    registered as the [presenceChange] handler as [start()] does. *)
Definition onSteamUser (bot : t) (sm : SteamManager.t) (clk : clock)
    (steamIdStr : jsstring) (u : SteamManager.user) : M unit :=
  SteamManager.onUser sm (Some (handlePresenceChange bot clk)) steamIdStr u.

(** What reaches the process-level listeners of [setupShutdownHandlers]. *)
Inductive signal := SIGINT | SIGTERM | uncaughtException | unhandledRejection.

(** The [shutdown] closure. [this.db] is set by the time the listeners
    are installed, so [this.db.close()] is always reached. *)
Definition shutdown (bot : t) (sig : signal) : M unit :=
  let* already := getShuttingDown in
  if already then ret ()
  else
    setShuttingDown true >>
    emit (Log info "Received signal, shutting down gracefully...") >>
    try_catch
      (match steamManager bot with
       | Some sm => SteamManager.logout sm
       | None => ret ()
       end >>
       match discordManager bot with
       | Some dm => DiscordManager.destroy dm
       | None => ret ()
       end >>
       emit DbClose >>
       emit (Log info "Shutdown complete") >>
       emit (ProcessExit 0))
      (λ _, emit (Log error "Error during shutdown:") >>
            emit (ProcessExit 1)).

(** The four [process.on] listeners. *)
Definition onProcessEvent (bot : t) (sig : signal) : M unit :=
  match sig with
  | SIGINT | SIGTERM => shutdown bot sig
  | uncaughtException =>
      emit (Log error "Uncaught exception:") >> shutdown bot sig
  | unhandledRejection =>
      emit (Log error "Unhandled rejection at:") >> shutdown bot sig
  end.

(** *** [validateConfig]

    [env] is [process.env]: the value of a variable, [None] when it is not
    set. *)




(** *** [handleFriendsListLoaded] *)

(** The [notFriends.forEach] loop: one warning per mapping. *)
Fixpoint warnEach (notFriends : list UserMapping.row) : M unit :=
  match notFriends with
  | [] => ret ()
  | _ :: rest => emit (Log warn "Discord ID -> Steam ID") >> warnEach rest
  end.

Definition handleFriendsListLoaded (friendsCache : gset jsstring) : M unit :=
  emit (Log info "Friends list loaded with") >>
  let* mappings := query DatabaseManager.getAllMappings in
  let notFriends :=
    filter (λ m, UserMapping.steam_id m ∉ friendsCache) mappings in
  if (0 <? length notFriends)%nat then
    emit (Log warn "linked user(s) are not friends with the bot:") >>
    warnEach notFriends >>
    emit (Log warn "These users will not receive presence updates until they add the bot as a friend.")
  else ret ().

End SteamDiscordBot.

(** ** commands/steam.js: the link and unlink handlers *)

Module SteamCommand.

(** The reply a handler edits into the interaction. *)
Inductive reply :=
| InvalidIdentifier                    (* 'Invalid Steam identifier. ...' *)
| NotFriends (steamId64 : jsstring)    (* '... is not friends with the bot.' *)
| AlreadyLinked                        (* 'You are already linked to Steam ID ...' *)
| LinkedToAnother                      (* '... already linked to another Discord user.' *)
| Linked (steamId64 : jsstring)        (* 'Successfully linked ...' *)
| NoLinkedAccount                      (* 'You do not have a linked Steam account.' *)
| Unlinked (steam_id : jsstring).      (* 'Successfully unlinked ...' *)

(** [now] is the time [linkUser]'s statement reads. *)
Definition handleLink (sm : SteamManager.t) (now : Z)
    (discordId identifier : jsstring) : M reply :=
  match parseSteamIdentifier identifier with
  | inl _ => ret InvalidIdentifier
  | inr steamId64 =>
      if negb (SteamManager.isFriend sm steamId64) then
        ret (NotFriends steamId64)
      else
        let* existing :=
          query (λ db, DatabaseManager.getUserMapping db discordId) in
        if match existing with
           | Some row =>
               negb (bool_decide (UserMapping.steam_id row = steamId64))
           | None => false
           end
        then ret AlreadyLinked
        else
          let* existingSteam :=
            query (λ db, DatabaseManager.getMappingBySteamId db steamId64) in
          if match existingSteam with
             | Some row =>
                 negb (bool_decide (UserMapping.discord_id row = discordId))
             | None => false
             end
          then ret LinkedToAnother
          else
            run tbl_user_mappings discordId
              (λ db, DatabaseManager.linkUser db discordId steamId64 now) >>
            emit (Log info "Linked Discord user") >>
            ret (Linked steamId64)
  end.

Definition handleUnlink (discordId : jsstring) : M reply :=
  let* existing :=
    query (λ db, DatabaseManager.getUserMapping db discordId) in
  match existing with
  | None => ret NoLinkedAccount
  | Some row =>
      run tbl_user_mappings discordId
        (λ db, DatabaseManager.unlinkUser db discordId) >>
      emit (Log info "Unlinked Discord user") >>
      ret (Unlinked (UserMapping.steam_id row))
  end.

(** The spec's [AlreadyLinkedOther]: either side is bound to a different
    counterpart. *)
Definition AlreadyLinkedOther (r : reply) : Prop :=
  match r with
  | AlreadyLinked | LinkedToAnother => True
  | _ => False
  end.

(** *** [handleSetChannel] *)

(** What the handler reads of the interaction: the member's Administrator
    permission, the guild, the chosen channel, whether it is text-based and
    the bot's SendMessages and EmbedLinks permissions in it. *)
Record setChannelInteraction := {
  i_administrator : bool;
  i_guildId : jsstring;
  i_channelId : jsstring;
  i_isTextBased : bool;
  i_sendMessages : bool;
  i_embedLinks : bool;
}.

Inductive channel_reply :=
| NeedAdministrator    (* 'You need Administrator permissions ...' *)
| NotTextChannel       (* 'Please select a text channel.' *)
| MissingPermissions   (* 'I do not have permission to send messages ...' *)
| ChannelSet.          (* 'Steam presence updates will now be sent to ...' *)

(** [now] is the time [setUpdateChannel]'s statement reads. *)
Definition handleSetChannel (i : setChannelInteraction) (now : Z)
  : M channel_reply :=
  if negb (i_administrator i) then ret NeedAdministrator
  else if negb (i_isTextBased i) then ret NotTextChannel
  else if negb (i_sendMessages i) || negb (i_embedLinks i)
  then ret MissingPermissions
  else
    run tbl_server_configs (i_guildId i)
      (λ db, DatabaseManager.setUpdateChannel db (i_guildId i) (i_channelId i)
               now) >>
    emit (Log info "Set update channel for guild") >>
    ret ChannelSet.

End SteamCommand.

(** ** Vocabulary of the properties *)

(** The world with more effects appended to its trace. *)
Definition push (w : world) (tr : list effect) : world :=
  {| w_db := w_db w;
     w_isShuttingDown := w_isShuttingDown w;
     w_trace := w_trace w ++ tr |}.

(** Destinations a delivery was started for: the [channels.fetch] calls. *)
Definition fetches (tr : list effect) : list jsstring :=
  omap (λ e, match e with ChannelsFetch c => Some c | _ => None end) tr.

(** Notifications handed to Discord: the [channel.send] calls. *)
Definition sends (tr : list effect)
  : list (jsstring * presenceData * option SteamCache.row) :=
  omap (λ e, match e with
             | ChannelSend c data prev => Some (c, data, prev)
             | _ => None
             end) tr.

(** Statements run on the database. *)
Definition writes (tr : list effect) : list (table * jsstring) :=
  omap (λ e, match e with StmtRun tbl k => Some (tbl, k) | _ => None end) tr.

(** The steps of the shutdown sequence: Steam logout, Discord client
    destroy, store close, process exit. *)
Definition isShutdownStep (e : effect) : bool :=
  match e with
  | LogOff | ClientDestroy | DbClose | ProcessExit _ => true
  | _ => false
  end.

Definition shutdownSteps (tr : list effect) : list effect :=
  List.filter isShutdownStep tr.

(** The cache row [updateSteamCache] writes for a snapshot at [now]. *)
Definition snapshotRow (data : presenceData) (now : Z) : SteamCache.row :=
  {| SteamCache.persona_name := personaName data;
     SteamCache.game_name := gameName data;
     SteamCache.game_id := gameId data;
     SteamCache.persona_state := personaState data;
     SteamCache.last_updated := now |}.

(** The cache holds the snapshot, written at [now]. *)
Definition cacheReflects (db : DatabaseManager.t) (data : presenceData)
    (now : Z) : Prop :=
  DatabaseManager.getSteamCache db (steamId data) = Some (snapshotRow data now).

(** The account of the snapshot is linked to some Discord user. *)
Definition linked (db : DatabaseManager.t) (steamId : jsstring) : Prop :=
  is_Some (DatabaseManager.getMappingBySteamId db steamId).

(** A changed event, in the words of the specification: no previous entry,
    or the presence state differs, or the activity name differs. *)
Definition changed (previous : option SteamCache.row) (data : presenceData)
  : Prop :=
  match previous with
  | None => True
  | Some prev =>
      SteamCache.persona_state prev ≠ personaState data
      ∨ SteamCache.game_name prev ≠ gameName data
  end.

(** Whether [EmbedBuilder] accepts the notification rendered for a
    snapshot and the previous row. *)
Definition embedBuilds (dm : DiscordManager.t) (data : presenceData)
    (prev : option SteamCache.row) : bool :=
  DiscordManager.embed_accepted dm
    (DiscordManager.createPresenceEmbed data (DiscordManager.viewOfRow <$> prev)).

(** Whether one delivery reports success, and what it does. *)
Definition deliveryOk (dm : DiscordManager.t) (data : presenceData)
    (prev : option SteamCache.row) (channelId : jsstring) : bool :=
  match DiscordManager.channels_fetch dm channelId with
  | DiscordManager.Channel true =>
      embedBuilds dm data prev && DiscordManager.send_resolves dm channelId
  | _ => false
  end.

Definition deliveryTrace (dm : DiscordManager.t) (channelId : jsstring)
    (data : presenceData) (prev : option SteamCache.row) : list effect :=
  ChannelsFetch channelId ::
  match DiscordManager.channels_fetch dm channelId with
  | DiscordManager.FetchRejects =>
      [Log error "Error sending presence update to channel"]
  | DiscordManager.NoChannel | DiscordManager.Channel false =>
      [Log warn "Channel not found or not text-based"]
  | DiscordManager.Channel true =>
      if embedBuilds dm data prev then
        ChannelSend channelId data prev ::
        (if DiscordManager.send_resolves dm channelId then []
         else [Log error "Error sending presence update to channel"])
      else [Log error "Error sending presence update to channel"]
  end.

Definition fanoutTrace (dm : DiscordManager.t)
    (serverConfigs : list ServerConfig.row) (data : presenceData)
    (prev : option SteamCache.row) : list effect :=
  mjoin ((λ c, deliveryTrace dm (ServerConfig.update_channel_id c) data prev)
         <$> serverConfigs).

(** The channels of the configured destinations, in delivery order. *)
Definition destinations (db : DatabaseManager.t) : list jsstring :=
  ServerConfig.update_channel_id <$> DatabaseManager.getAllServerConfigs db.

(** The destinations whose channel is found and text-based. *)
Definition reachable (dm : DiscordManager.t) (chans : list jsstring)
  : list jsstring :=
  List.filter
    (λ c, match DiscordManager.channels_fetch dm c with
          | DiscordManager.Channel true => true
          | _ => false
          end) chans.

(** The destinations [channel.send] is called on for a snapshot: the
    reachable ones when [EmbedBuilder] accepts its embed, none when it
    throws. *)
Definition notified (dm : DiscordManager.t) (data : presenceData)
    (prev : option SteamCache.row) (chans : list jsstring) : list jsstring :=
  if embedBuilds dm data prev then reachable dm chans else [].

(** The database once an eligible event has been committed: the cache
    write followed by the rate-limit write. *)
Definition committed (db : DatabaseManager.t) (clk : SteamDiscordBot.clock)
    (data : presenceData) : DatabaseManager.t :=
  DatabaseManager.recordUpdate
    (DatabaseManager.updateSteamCache db (steamId data) data
       (SteamDiscordBot.at_updateSteamCache clk))
    (steamId data) (SteamDiscordBot.at_recordUpdate clk).

(** A run of 'steamGuard' challenges, each with its time and its
    [lastCodeWrong] flag. *)
Definition challenges (times : list (Z * bool))
  : list (Z * SteamManager.client_event) :=
  (λ '(now, lastCodeWrong), (now, SteamManager.steamGuard None lastCodeWrong))
  <$> times.

(** Two snapshots that differ in a compared field. *)
Definition differs (a b : presenceData) : Prop :=
  personaState a ≠ personaState b ∨ gameName a ≠ gameName b.

(** The steps [shutdown] performs when it runs to the end: logout when
    logged in, client destroy, store close, exit; a rejected destroy skips
    the close and exits with 1. *)
Definition shutdownSequence (bot : SteamDiscordBot.t) : list effect :=
  match SteamDiscordBot.steamManager bot with
  | Some sm => if SteamManager.isLoggedIn sm then [LogOff] else []
  | None => []
  end
  ++ match SteamDiscordBot.discordManager bot with
     | Some dm =>
         ClientDestroy ::
         (if DiscordManager.destroy_resolves dm then [DbClose; ProcessExit 0]
          else [ProcessExit 1])
     | None => [DbClose; ProcessExit 0]
     end.

(** ** A concrete deployment, used to exercise the statements *)

Module Sample.

Definition alice := js "76561198000000001".
Definition bob := js "76561198000000002".

Definition link (discordId steamId : jsstring) : UserMapping.row :=
  {| UserMapping.discord_id := discordId;
     UserMapping.steam_id := steamId;
     UserMapping.linked_at := 0;
     UserMapping.updated_at := 0 |}.

Definition destination (guildId channelId : jsstring) : ServerConfig.row :=
  {| ServerConfig.guild_id := guildId;
     ServerConfig.update_channel_id := channelId;
     ServerConfig.created_at := 0;
     ServerConfig.updated_at := 0 |}.

Definition snapshot (steamId name : jsstring) (state : Z)
    (game : option jsstring) : presenceData :=
  {| steamId := steamId; personaName := name; personaState := state;
     gameId := None; gameName := game; richPresence := [] |}.

(** Alice is linked to Discord user u1; two destinations; nothing cached
    and no notification recorded yet. *)
Definition fresh : DatabaseManager.t :=
  {| DatabaseManager.user_mappings := [link (js "u1") alice];
     DatabaseManager.server_configs :=
       [destination (js "g1") (js "c1"); destination (js "g2") (js "c2")];
     DatabaseManager.rate_limits := ∅;
     DatabaseManager.steam_cache := ∅ |}.

(** Alice was last seen online as "Alice" at time 10 and last notified at
    time 100. *)
Definition seen : DatabaseManager.t :=
  {| DatabaseManager.user_mappings := [link (js "u1") alice];
     DatabaseManager.server_configs :=
       [destination (js "g1") (js "c1"); destination (js "g2") (js "c2")];
     DatabaseManager.rate_limits :=
       {[ alice := {| RateLimit.last_update := 100;
                      RateLimit.update_count := 1 |} ]};
     DatabaseManager.steam_cache :=
       {[ alice := snapshotRow (snapshot alice (js "Alice") 1 None) 10 ]} |}.

(** The limits discord.js places on what [createPresenceEmbed] sets: a
    title of at most 256 code units, a description of at most 4096, a
    field value of at most 1024. *)
Definition withinLimits (e : DiscordManager.embed) : bool :=
  (length (DiscordManager.title e) <=? 256)%nat
  && (length (DiscordManager.description e) <=? 4096)%nat
  && (length (DiscordManager.profileField e) <=? 1024)%nat.

(** The first destination cannot be fetched, the second works. *)
Definition discord : DiscordManager.t :=
  {| DiscordManager.channels_fetch :=
       λ c, if bool_decide (c = js "c1") then DiscordManager.FetchRejects
            else DiscordManager.Channel true;
     DiscordManager.embed_accepted := withinLimits;
     DiscordManager.send_resolves := λ _, true;
     DiscordManager.destroy_resolves := true |}.

Definition settings (secret : option jsstring) : SteamManager.config :=
  {| SteamManager.username := js "bot";
     SteamManager.cfg_password := js "hunter2";
     SteamManager.sharedSecret := secret;
     SteamManager.cfg_twoFactorCode := None |}.

(** A logged-in session that has Bob, not Alice, as a friend. *)
Definition steam : SteamManager.t :=
  {| SteamManager.cfg := settings (Some (js "seed"));
     SteamManager.friendsCache := {[ bob ]};
     SteamManager.isLoggedIn := true |}.

Definition bot : SteamDiscordBot.t :=
  {| SteamDiscordBot.steamManager := Some steam;
     SteamDiscordBot.discordManager := Some discord |}.

(** The bot between the registration of the presence handler and the
    creation of the Discord manager in [start()]. *)
Definition early : SteamDiscordBot.t :=
  {| SteamDiscordBot.steamManager := Some steam;
     SteamDiscordBot.discordManager := None |}.

(** Snapshots of Alice: online; online under a new display name; online
    in a game; away in the same game. *)
Definition online := snapshot alice (js "Alice") 1 None.
Definition renamed := snapshot alice (js "Alicia") 1 None.
Definition inGame := snapshot alice (js "Alice") 1 (Some (js "Game A")).
Definition away := snapshot alice (js "Alice") 3 (Some (js "Game A")).

(** A persona object with a name and nothing else. *)
Definition persona : SteamManager.user :=
  {| SteamManager.player_name := Some (js "Alice");
     SteamManager.persona_state := Some 1;
     SteamManager.gameid := None;
     SteamManager.game_name := None;
     SteamManager.rich_presence := None |}.

(** A stand-in for the one-time code: the secret followed by the number
    of the 30 second window. *)
Definition totp (secret : jsstring) (now : Z) : jsstring :=
  secret ++ [Z.to_N (now / 30)].

End Sample.

(** ** src/logger.js *)

Module Logger.

(** The own properties of [this.levels]. *)
Definition ownLevel (name : jsstring) : option Z :=
  if bool_decide (name = js "debug") then Some 0
  else if bool_decide (name = js "info") then Some 1
  else if bool_decide (name = js "warn") then Some 2
  else if bool_decide (name = js "error") then Some 3
  else None.

(** The property names an object literal inherits from
    [Object.prototype]. *)
Definition inheritedNames : list jsstring :=
  js <$> ["constructor"; "__defineGetter__"; "__defineSetter__";
          "hasOwnProperty"; "__lookupGetter__"; "__lookupSetter__";
          "isPrototypeOf"; "propertyIsEnumerable"; "toString"; "valueOf";
          "__proto__"; "toLocaleString"]%string.

(** What [this.levels[name]] evaluates to: a number, [undefined], or an
    inherited function or object. *)
Inductive value := Number (n : Z) | Undefined | Inherited.

Definition levels (name : jsstring) : value :=
  match ownLevel name with
  | Some n => Number n
  | None =>
      if bool_decide (name ∈ inheritedNames) then Inherited else Undefined
  end.

(** [this.level]; [None] when it is not a number, in which case every
    comparison with a number is false. *)
Record t := { this_level : option Z }.

(** [constructor(level = 'info')]: the argument is [None] when it is
    [undefined]. [this.level = this.levels[level] || this.levels.info]. *)
Definition new (arg : option jsstring) : t :=
  {| this_level :=
       match levels (default (js "info") arg) with
       | Number 0 | Undefined => Some 1
       | Number n => Some n
       | Inherited => None
       end |}.

(** [this.levels.debug], ... *)
Definition rank (lvl : level) : Z :=
  match lvl with debug => 0 | info => 1 | warn => 2 | error => 3 end.

(** Whether the method of that level writes to the console:
    [this.level <= this.levels.x]. *)
Definition prints (lg : t) (lvl : level) : bool :=
  match this_level lg with
  | Some n => n <=? rank lvl
  | None => false
  end.

End Logger.

(** ** Vocabulary of the further properties *)

(** The row [linkUser] inserts. *)
Definition linkRow (discordId steamId : jsstring) (now : Z) : UserMapping.row :=
  {| UserMapping.discord_id := discordId;
     UserMapping.steam_id := steamId;
     UserMapping.linked_at := now;
     UserMapping.updated_at := now |}.

(** The row [setUpdateChannel] inserts. *)
Definition configRow (guildId channelId : jsstring) (now : Z)
  : ServerConfig.row :=
  {| ServerConfig.guild_id := guildId;
     ServerConfig.update_channel_id := channelId;
     ServerConfig.created_at := now;
     ServerConfig.updated_at := now |}.

(** [recordUpdate] for one account at each of the times, in order. *)
Definition recordAll (db : DatabaseManager.t) (steamId : jsstring)
    (times : list Z) : DatabaseManager.t :=
  foldl (λ acc now, DatabaseManager.recordUpdate acc steamId now) db times.

(** Presence events handled one after the other, each within its second. *)
Fixpoint handleAll (bot : SteamDiscordBot.t)
    (events : list (Z * presenceData)) (w : world) : world :=
  match events with
  | [] => w
  | (now, data) :: rest =>
      handleAll bot rest
        (exec (SteamDiscordBot.handlePresenceChange bot
                 (SteamDiscordBot.at_time now) data) w)
  end.

(** The notification count stored for an account, when it has a record. *)
Definition countOf (db : DatabaseManager.t) (account : jsstring) : option Z :=
  RateLimit.update_count <$> DatabaseManager.rate_limits db !! account.

(** The times, among those of the events, at which handling the event
    raised the notification count of [account]. *)
Fixpoint chargedAt (bot : SteamDiscordBot.t) (account : jsstring)
    (events : list (Z * presenceData)) (w : world) : list Z :=
  match events with
  | [] => []
  | (now, data) :: rest =>
      let w' := exec (SteamDiscordBot.handlePresenceChange bot
                        (SteamDiscordBot.at_time now) data) w in
      (if bool_decide (countOf (w_db w') account = countOf (w_db w) account)
       then [] else [now])
      ++ chargedAt bot account rest w'
  end.

(** Each time is at least [gap] after the one before it, the first one
    after [previous] when there is one. *)
Fixpoint spaced (gap : Z) (previous : option Z) (times : list Z) : Prop :=
  match times with
  | [] => True
  | t :: rest =>
      match previous with
      | Some p => p + gap ≤ t
      | None => True
      end
      ∧ spaced gap (Some t) rest
  end.

(** The warnings of [handleFriendsListLoaded] that name one link. *)
Definition linkWarnings (tr : list effect) : nat :=
  length (List.filter
            (λ e, match e with
                  | Log warn "Discord ID -> Steam ID" => true
                  | _ => false
                  end) tr).

(** The warnings and errors in a trace: what a delivery that does not
    succeed leaves in the log. *)
Definition failuresLogged (tr : list effect) : nat :=
  length (List.filter
            (λ e, match e with
                  | Log warn _ | Log error _ => true
                  | _ => false
                  end) tr).

(** ** More of the sample deployment *)

Module Scene.

Definition carol := js "76561198000000003".

(** A session that has Alice and Bob as friends. *)
Definition steam : SteamManager.t :=
  {| SteamManager.cfg := Sample.settings (Some (js "seed"));
     SteamManager.friendsCache := {[ Sample.alice; Sample.bob ]};
     SteamManager.isLoggedIn := true |}.

(** A session configured with a manual code and no shared secret. *)
Definition manual : SteamManager.t :=
  {| SteamManager.cfg :=
       {| SteamManager.username := js "bot";
          SteamManager.cfg_password := js "hunter2";
          SteamManager.sharedSecret := None;
          SteamManager.cfg_twoFactorCode := Some (js "R2D2C") |};
     SteamManager.friendsCache := ∅;
     SteamManager.isLoggedIn := false |}.

(** An administrator picks channel c9 for guild g1. *)
Definition pick : SteamCommand.setChannelInteraction :=
  {| SteamCommand.i_administrator := true;
     SteamCommand.i_guildId := js "g1";
     SteamCommand.i_channelId := js "c9";
     SteamCommand.i_isTextBased := true;
     SteamCommand.i_sendMessages := true;
     SteamCommand.i_embedLinks := true |}.


(** A handler that records the snapshot it is given in a log line's
    place: it writes the snapshot to the cache at time 0. *)
Definition record (data : presenceData) : M unit :=
  run tbl_steam_cache (steamId data)
    (λ db, DatabaseManager.updateSteamCache db (steamId data) data 0).

(** Alice online under a display name of 300 code units: the title of
    her notification is over the limit. *)
Definition verbose : presenceData :=
  Sample.snapshot Sample.alice (replicate 300 65%N) 1 None.

(** Both destinations can be fetched; sending to the first one fails. *)
Definition flaky : DiscordManager.t :=
  {| DiscordManager.channels_fetch := λ _, DiscordManager.Channel true;
     DiscordManager.embed_accepted := Sample.withinLimits;
     DiscordManager.send_resolves := λ c, negb (bool_decide (c = js "c1"));
     DiscordManager.destroy_resolves := true |}.


End Scene.

(** * Properties *)

(** ** Running the monad *)

Lemma push_nil w : push w [] = w.
Proof. destruct w; unfold push; simpl. by rewrite app_nil_r. Qed.

Lemma push_push w a b : push (push w a) b = push w (a ++ b).
Proof. unfold push; simpl. by rewrite app_assoc. Qed.

Lemma emit_run e w : emit e w = (inr (), push w [e]).
Proof. reflexivity. Qed.

Lemma bind_inr {A B} (m : M A) (f : A → M B) w a w' :
  m w = (inr a, w') → bind m f w = f a w'.
Proof. unfold bind. by intros ->. Qed.

(** Normalises the traces on both sides of an equation between worlds. *)
Ltac trace_norm :=
  unfold push, emit, ret, throw, bind; simpl; rewrite <- ?app_assoc; simpl.

(** ** Deliveries *)

Lemma sendPresenceUpdate_run dm channelId data prev w :
  DiscordManager.sendPresenceUpdate dm channelId data prev w
  = (inr (deliveryOk dm data prev channelId),
     push w (deliveryTrace dm channelId data prev)).
Proof.
  unfold DiscordManager.sendPresenceUpdate, try_catch, deliveryOk, deliveryTrace,
    embedBuilds.
  destruct (DiscordManager.channels_fetch dm channelId) as [| |[|]];
    trace_norm; try done.
  destruct (DiscordManager.embed_accepted dm _); trace_norm; [|done].
  destruct (DiscordManager.send_resolves dm channelId); trace_norm; done.
Qed.

Lemma fanout_run bot dm serverConfigs data prev sentCount w :
  SteamDiscordBot.discordManager bot = Some dm →
  SteamDiscordBot.fanout bot serverConfigs data prev sentCount w
  = (inr (sentCount
          + length (List.filter (deliveryOk dm data prev)
                      (ServerConfig.update_channel_id <$> serverConfigs)))%nat,
     push w (fanoutTrace dm serverConfigs data prev)).
Proof.
  intros Hdm. revert sentCount w.
  induction serverConfigs as [|config rest IH]; intros sentCount w; simpl.
  - unfold ret, fanoutTrace; simpl. by rewrite push_nil, Nat.add_0_r.
  - rewrite Hdm.
    rewrite (bind_inr _ _ _ _ _ (sendPresenceUpdate_run _ _ _ _ _)).
    rewrite IH. unfold fanoutTrace; simpl. rewrite push_push.
    f_equal. f_equal.
    destruct (deliveryOk dm data prev (ServerConfig.update_channel_id config));
      simpl;
      [by rewrite Nat.add_succ_r | done].
Qed.

Lemma fanout_keeps_db bot serverConfigs data prev sentCount w :
  w_db (exec (SteamDiscordBot.fanout bot serverConfigs data prev sentCount) w)
  = w_db w
  ∧ w_isShuttingDown
      (exec (SteamDiscordBot.fanout bot serverConfigs data prev sentCount) w)
    = w_isShuttingDown w.
Proof.
  unfold exec.
  destruct (SteamDiscordBot.discordManager bot) as [dm|] eqn:Hdm.
  - by rewrite (fanout_run _ dm).
  - destruct serverConfigs; simpl; by rewrite ?Hdm.
Qed.

Lemma fetches_app a b : fetches (a ++ b) = fetches a ++ fetches b.
Proof. apply omap_app. Qed.

Lemma sends_app a b : sends (a ++ b) = sends a ++ sends b.
Proof. apply omap_app. Qed.

Lemma writes_app a b : writes (a ++ b) = writes a ++ writes b.
Proof. apply omap_app. Qed.

Lemma shutdownSteps_app a b :
  shutdownSteps (a ++ b) = shutdownSteps a ++ shutdownSteps b.
Proof. apply List.filter_app. Qed.

Lemma fanoutTrace_cons dm c rest data prev :
  fanoutTrace dm (c :: rest) data prev
  = deliveryTrace dm (ServerConfig.update_channel_id c) data prev
    ++ fanoutTrace dm rest data prev.
Proof. reflexivity. Qed.

(** Destructs the outcome of the fetch and of the send in a delivery. *)
Ltac delivery_cases :=
  unfold deliveryTrace, notified, reachable; simpl;
  match goal with
  | |- context [embedBuilds ?dm ?data ?prev] =>
      destruct (embedBuilds dm data prev)
  end;
  match goal with
  | |- context [DiscordManager.channels_fetch ?dm ?c] =>
      destruct (DiscordManager.channels_fetch dm c) as [| |[|]]; simpl;
      try done; by destruct (DiscordManager.send_resolves dm c)
  end.

Lemma deliveryTrace_fetches dm c data prev :
  fetches (deliveryTrace dm c data prev) = [c].
Proof. delivery_cases. Qed.

Lemma deliveryTrace_sends dm c data prev :
  sends (deliveryTrace dm c data prev)
  = (λ c, (c, data, prev)) <$> notified dm data prev [c].
Proof. delivery_cases. Qed.

Lemma deliveryTrace_writes dm c data prev :
  writes (deliveryTrace dm c data prev) = [].
Proof. delivery_cases. Qed.

Lemma deliveryTrace_shutdownSteps dm c data prev :
  shutdownSteps (deliveryTrace dm c data prev) = [].
Proof. delivery_cases. Qed.

Lemma fanoutTrace_fetches dm serverConfigs data prev :
  fetches (fanoutTrace dm serverConfigs data prev)
  = ServerConfig.update_channel_id <$> serverConfigs.
Proof.
  induction serverConfigs as [|c rest IH]; [done|].
  rewrite fanoutTrace_cons, fetches_app, IH, deliveryTrace_fetches. done.
Qed.

Lemma fanoutTrace_sends dm serverConfigs data prev :
  sends (fanoutTrace dm serverConfigs data prev)
  = (λ c, (c, data, prev))
    <$> notified dm data prev (ServerConfig.update_channel_id <$> serverConfigs).
Proof.
  induction serverConfigs as [|c rest IH].
  { unfold notified. by destruct (embedBuilds dm data prev). }
  rewrite fanoutTrace_cons, sends_app, IH, deliveryTrace_sends.
  rewrite <- fmap_app. f_equal. unfold notified, reachable.
  destruct (embedBuilds dm data prev); [|done]. simpl.
  by destruct (DiscordManager.channels_fetch dm (ServerConfig.update_channel_id c))
    as [| |[|]].
Qed.

Lemma fanoutTrace_writes dm serverConfigs data prev :
  writes (fanoutTrace dm serverConfigs data prev) = [].
Proof.
  induction serverConfigs as [|c rest IH]; [done|].
  by rewrite fanoutTrace_cons, writes_app, IH, deliveryTrace_writes.
Qed.

Lemma fanoutTrace_shutdownSteps dm serverConfigs data prev :
  shutdownSteps (fanoutTrace dm serverConfigs data prev) = [].
Proof.
  induction serverConfigs as [|c rest IH]; [done|].
  by rewrite fanoutTrace_cons, shutdownSteps_app, IH, deliveryTrace_shutdownSteps.
Qed.

(** ** The ways through [handlePresenceChange] *)

Lemma noMeaningfulChange_false prev data :
  SteamDiscordBot.noMeaningfulChange prev data = false ↔ changed prev data.
Proof.
  unfold SteamDiscordBot.noMeaningfulChange, changed.
  destruct prev as [prev|]; [|done].
  rewrite !negb_involutive, andb_false_iff, !bool_decide_eq_false. done.
Qed.

Lemma noMeaningfulChange_true prev data :
  SteamDiscordBot.noMeaningfulChange prev data = true
  ↔ ∃ row, prev = Some row
           ∧ SteamCache.persona_state row = personaState data
           ∧ SteamCache.game_name row = gameName data.
Proof.
  unfold SteamDiscordBot.noMeaningfulChange.
  destruct prev as [prev|].
  - rewrite !negb_involutive, andb_true_iff, !bool_decide_eq_true.
    split; [intros []; eauto | intros (row & [= <-] & ? & ?); done].
  - split; [done | intros (? & ? & _); done].
Qed.

Section Handler.

Import DatabaseManager SteamDiscordBot.

Variables (bot : SteamDiscordBot.t) (clk : clock) (data : presenceData).
Variable w : world.

Lemma handle_not_linked :
  getMappingBySteamId (w_db w) (steamId data) = None →
  handlePresenceChange bot clk data w = (inr (), w).
Proof.
  intros H. unfold handlePresenceChange, handlePresenceChange_try, try_catch,
    bind, query. by rewrite H.
Qed.

Lemma handle_no_change :
  noMeaningfulChange (getSteamCache (w_db w) (steamId data)) data = true →
  handlePresenceChange bot clk data w = (inr (), w).
Proof.
  intros H. unfold handlePresenceChange, handlePresenceChange_try, try_catch,
    bind, query.
  destruct (getMappingBySteamId _ _); [|done]. by rewrite H.
Qed.

Lemma handle_throttled :
  linked (w_db w) (steamId data) →
  noMeaningfulChange (getSteamCache (w_db w) (steamId data)) data = false →
  canUpdate (w_db w) (steamId data) 300 (at_canUpdate clk) = false →
  handlePresenceChange bot clk data w
  = (inr (),
     {| w_db := updateSteamCache (w_db w) (steamId data) data
                  (at_updateSteamCache clk);
        w_isShuttingDown := w_isShuttingDown w;
        w_trace := w_trace w ++ [Log debug "Rate limited update for";
                                 StmtRun tbl_steam_cache (steamId data)] |}).
Proof.
  intros [m Hm] Hc Hr.
  unfold handlePresenceChange, handlePresenceChange_try, try_catch, bind, query.
  rewrite Hm, Hc, Hr. simpl. unfold run. simpl. by rewrite <- app_assoc.
Qed.

(** The try block of an eligible changed event: both writes, then the
    loop over the destinations. *)
Lemma handle_eligible_try :
  linked (w_db w) (steamId data) →
  noMeaningfulChange (getSteamCache (w_db w) (steamId data)) data = false →
  canUpdate (w_db w) (steamId data) 300 (at_canUpdate clk) = true →
  handlePresenceChange_try bot clk data w
  = (let* sentCount :=
       fanout bot (server_configs (w_db w)) data
         (getSteamCache (w_db w) (steamId data)) 0%nat in
     if (0 <? sentCount)%nat then emit (Log info "Sent presence update for")
     else ret ())
      {| w_db := committed (w_db w) clk data;
         w_isShuttingDown := w_isShuttingDown w;
         w_trace := w_trace w ++ [StmtRun tbl_steam_cache (steamId data);
                                  StmtRun tbl_rate_limits (steamId data)] |}.
Proof.
  intros [m Hm] Hc Hr.
  unfold handlePresenceChange_try, bind at 1, query at 1. rewrite Hm.
  unfold bind at 1, query at 1. rewrite Hc.
  unfold bind at 1, query at 1. rewrite Hr. simpl.
  unfold bind at 1, run at 1. simpl.
  unfold bind at 1, run at 1. simpl.
  unfold bind at 1, query at 1. simpl.
  by rewrite <- app_assoc.
Qed.

Lemma handle_eligible dm :
  discordManager bot = Some dm →
  linked (w_db w) (steamId data) →
  noMeaningfulChange (getSteamCache (w_db w) (steamId data)) data = false →
  canUpdate (w_db w) (steamId data) 300 (at_canUpdate clk) = true →
  handlePresenceChange bot clk data w
  = (inr (),
     {| w_db := committed (w_db w) clk data;
        w_isShuttingDown := w_isShuttingDown w;
        w_trace :=
          w_trace w
          ++ [StmtRun tbl_steam_cache (steamId data);
              StmtRun tbl_rate_limits (steamId data)]
          ++ fanoutTrace dm (server_configs (w_db w)) data
               (getSteamCache (w_db w) (steamId data))
          ++ (if (0 <? length (List.filter
                                 (deliveryOk dm data
                                    (getSteamCache (w_db w) (steamId data)))
                                 (destinations (w_db w))))%nat
              then [Log info "Sent presence update for"] else []) |}).
Proof.
  intros Hdm Hl Hc Hr. unfold handlePresenceChange, try_catch.
  rewrite handle_eligible_try by done.
  rewrite (bind_inr _ _ _ _ _ (fanout_run _ dm _ _ _ _ _ Hdm)). simpl.
  unfold destinations, getAllServerConfigs.
  destruct (0 <? _)%nat; trace_norm; [done|]. by rewrite app_nil_r.
Qed.

(** Whatever the Discord side does, an eligible changed event leaves the
    database as committed. *)
Lemma handle_eligible_db :
  linked (w_db w) (steamId data) →
  noMeaningfulChange (getSteamCache (w_db w) (steamId data)) data = false →
  canUpdate (w_db w) (steamId data) 300 (at_canUpdate clk) = true →
  w_db (exec (handlePresenceChange bot clk data) w) = committed (w_db w) clk data.
Proof.
  intros Hl Hc Hr. unfold exec, handlePresenceChange, try_catch.
  rewrite handle_eligible_try by done.
  set (w1 := {| w_db := committed (w_db w) clk data |}).
  pose proof (fanout_keeps_db bot (server_configs (w_db w)) data
                (getSteamCache (w_db w) (steamId data)) 0%nat w1) as [Hdb _].
  unfold exec, bind in *.
  destruct (fanout _ _ _ _ _ w1) as [[e|n] w2]; simpl in *; [done|].
  by destruct (0 <? n)%nat.
Qed.

End Handler.

(** ** What the two writes leave in the store *)

Lemma cache_after_update db data now :
  cacheReflects (DatabaseManager.updateSteamCache db (steamId data) data now)
    data now.
Proof. apply lookup_insert_eq. Qed.

Lemma cache_after_commit db clk data :
  cacheReflects (committed db clk data) data
    (SteamDiscordBot.at_updateSteamCache clk).
Proof. apply lookup_insert_eq. Qed.

Lemma rate_after_commit db clk data :
  DatabaseManager.rate_limits (committed db clk data) !! steamId data
  = Some {| RateLimit.last_update := SteamDiscordBot.at_recordUpdate clk;
            RateLimit.update_count :=
              default 0 (RateLimit.update_count
                         <$> DatabaseManager.rate_limits db !! steamId data)
              + 1 |}.
Proof. apply lookup_insert_eq. Qed.

Lemma no_change_once_cached db data now :
  cacheReflects db data now →
  SteamDiscordBot.noMeaningfulChange
    (DatabaseManager.getSteamCache db (steamId data)) data = true.
Proof.
  intros H. apply noMeaningfulChange_true. exists (snapshotRow data now). done.
Qed.

Lemma canUpdate_false db steamId now record :
  DatabaseManager.rate_limits db !! steamId = Some record →
  now - RateLimit.last_update record < 300 →
  DatabaseManager.canUpdate db steamId 300 now = false.
Proof.
  intros H Hlt. unfold DatabaseManager.canUpdate. rewrite H. lia.
Qed.

Lemma canUpdate_true_iff db steamId cooldownSeconds now :
  DatabaseManager.canUpdate db steamId cooldownSeconds now = true
  ↔ DatabaseManager.rate_limits db !! steamId = None
    ∨ ∃ record, DatabaseManager.rate_limits db !! steamId = Some record
                ∧ cooldownSeconds ≤ now - RateLimit.last_update record.
Proof.
  unfold DatabaseManager.canUpdate.
  destruct (DatabaseManager.rate_limits db !! steamId) as [record|].
  - rewrite Z.leb_le. split.
    + intros H. right. exists record. split; [done | lia].
    + intros [[=] | (r & [= <-] & H)]. lia.
  - split; [by left | done].
Qed.

(** ** Views of the two writing paths *)

Section Runs.

Import DatabaseManager SteamDiscordBot.

Variables (bot : SteamDiscordBot.t) (clk : clock) (data : presenceData).
Variable w : world.

Lemma eligible_run dm :
  discordManager bot = Some dm →
  linked (w_db w) (steamId data) →
  changed (getSteamCache (w_db w) (steamId data)) data →
  canUpdate (w_db w) (steamId data) 300 (at_canUpdate clk) = true →
  let w' := exec (handlePresenceChange bot clk data) w in
  w_db w' = committed (w_db w) clk data
  ∧ fetches (w_trace w') = fetches (w_trace w) ++ destinations (w_db w)
  ∧ sends (w_trace w')
    = sends (w_trace w)
      ++ ((λ c, (c, data, getSteamCache (w_db w) (steamId data)))
          <$> notified dm data (getSteamCache (w_db w) (steamId data))
                (destinations (w_db w))).
Proof.
  intros Hdm Hl Hc%noMeaningfulChange_false Hr w'. subst w'. unfold exec.
  rewrite (handle_eligible _ _ _ _ dm) by done. cbn [snd w_trace w_db].
  rewrite !fetches_app, !sends_app, fanoutTrace_fetches, fanoutTrace_sends.
  split; [done|]. unfold destinations, getAllServerConfigs.
  destruct (0 <? _)%nat; simpl; rewrite !app_nil_r; done.
Qed.

Lemma throttled_run record :
  linked (w_db w) (steamId data) →
  changed (getSteamCache (w_db w) (steamId data)) data →
  rate_limits (w_db w) !! steamId data = Some record →
  at_canUpdate clk - RateLimit.last_update record < 300 →
  let w' := exec (handlePresenceChange bot clk data) w in
  w_db w' = updateSteamCache (w_db w) (steamId data) data
              (at_updateSteamCache clk)
  ∧ fetches (w_trace w') = fetches (w_trace w)
  ∧ sends (w_trace w') = sends (w_trace w).
Proof.
  intros Hl Hc%noMeaningfulChange_false Hrec Hlt w'. subst w'. unfold exec.
  rewrite handle_throttled; eauto using canUpdate_false.
  simpl. rewrite sends_app, fetches_app. simpl. by rewrite !app_nil_r.
Qed.

End Runs.

(** ** The presence pipeline *)

Section Pipeline.

Import DatabaseManager SteamDiscordBot.

(** C1, as amended. For every presence event of a linked account that is
    changed (no cached entry, or the presence state or the activity name
    differs from the cached one), the cache entry becomes the event's
    snapshot, stamped with the time of the write, whether the event is
    notified or throttled; an event whose compared fields equal the
    cached ones leaves the cache entry as it was. *)
Theorem cache_updated_on_changed_event bot clk data w :
  linked (w_db w) (steamId data) →
  let before := getSteamCache (w_db w) (steamId data) in
  let after := w_db (exec (handlePresenceChange bot clk data) w) in
  (changed before data → cacheReflects after data (at_updateSteamCache clk))
  ∧ (¬ changed before data → getSteamCache after (steamId data) = before).
Proof.
  intros Hl before after. subst before after. split.
  - intros Hc%noMeaningfulChange_false.
    destruct (canUpdate (w_db w) (steamId data) 300 (at_canUpdate clk)) eqn:Hr.
    + rewrite handle_eligible_db by done. apply cache_after_commit.
    + unfold exec. rewrite handle_throttled by done. apply cache_after_update.
  - intros Hn. unfold exec. rewrite handle_no_change; [done|].
    destruct (noMeaningfulChange _ _) eqn:E; [done|].
    by apply noMeaningfulChange_false in E.
Qed.

(** C3. For a linked account with a cache entry, a snapshot whose presence
    state and activity name equal the cached ones leaves the whole world
    as it was: nothing is sent, no statement runs, the rate-limit record
    and its timestamp stay, whatever the cooldown. And from any world, the
    same snapshot delivered a second time changes nothing. *)
Theorem identical_snapshot_is_noop bot clk data w prev :
  linked (w_db w) (steamId data) →
  getSteamCache (w_db w) (steamId data) = Some prev →
  SteamCache.persona_state prev = personaState data →
  SteamCache.game_name prev = gameName data →
  handlePresenceChange bot clk data w = (inr (), w)
  ∧ ∀ bot0 clk0 w0 bot1 clk1,
      let w1 := exec (handlePresenceChange bot0 clk0 data) w0 in
      handlePresenceChange bot1 clk1 data w1 = (inr (), w1).
Proof.
  intros _ Hprev Hs Hg. split.
  - apply handle_no_change. apply noMeaningfulChange_true. eauto.
  - clear. intros bot0 clk0 w0 bot1 clk1 w1. subst w1.
    destruct (getMappingBySteamId (w_db w0) (steamId data)) as [m|] eqn:Hm.
    2: { unfold exec. rewrite (handle_not_linked bot0) by done.
         by apply handle_not_linked. }
    assert (linked (w_db w0) (steamId data)) as Hl by (by exists m).
    destruct (noMeaningfulChange (getSteamCache (w_db w0) (steamId data)) data)
      eqn:Hc.
    { unfold exec. rewrite (handle_no_change bot0) by done.
      by apply handle_no_change. }
    apply handle_no_change.
    destruct (canUpdate (w_db w0) (steamId data) 300 (at_canUpdate clk0)) eqn:Hr.
    + rewrite handle_eligible_db by done.
      eapply no_change_once_cached, cache_after_commit.
    + unfold exec. rewrite handle_throttled by done.
      eapply no_change_once_cached, cache_after_update.
Qed.

(** C5. A changed event of a linked account that arrives inside the
    cooldown still writes the snapshot to the cache; it starts no
    delivery, sends nothing, and the only statement it runs is the cache
    write, so the rate-limit table (count and timestamp) is untouched. *)
Theorem throttled_event_updates_cache_only bot clk data w record :
  linked (w_db w) (steamId data) →
  changed (getSteamCache (w_db w) (steamId data)) data →
  rate_limits (w_db w) !! steamId data = Some record →
  at_canUpdate clk - RateLimit.last_update record < 300 →
  let w' := exec (handlePresenceChange bot clk data) w in
  cacheReflects (w_db w') data (at_updateSteamCache clk)
  ∧ sends (w_trace w') = sends (w_trace w)
  ∧ fetches (w_trace w') = fetches (w_trace w)
  ∧ writes (w_trace w')
    = writes (w_trace w) ++ [(tbl_steam_cache, steamId data)]
  ∧ rate_limits (w_db w') = rate_limits (w_db w).
Proof.
  intros Hl Hc%noMeaningfulChange_false Hrec Hlt w'. subst w'.
  unfold exec. rewrite handle_throttled; eauto using canUpdate_false.
  simpl. rewrite sends_app, fetches_app, writes_app. simpl.
  rewrite !app_nil_r. split; [apply cache_after_update | done].
Qed.

(** C4. With the cooldown of 300 seconds, [canUpdate] holds exactly when
    there is no rate-limit record or the time read minus [last_update] is
    at least 300. On a linked account with no record: a changed event at
    [t0] is notified (a delivery is started to every destination, and
    [channel.send] is called on each one that is found and text-based,
    provided [EmbedBuilder] accepts the embed) and creates the record
    [(t0, 1)]; a changed event at [t0 + 299] writes the cache, starts no
    delivery and leaves the record; a changed event at [t0 + 300] is
    notified in the same way and sets the record to [(t0 + 300, 2)]. *)
Theorem rate_limit_boundary bot dm db t0 eventB eventC eventD :
  discordManager bot = Some dm →
  linked db (steamId eventB) →
  rate_limits db !! steamId eventB = None →
  steamId eventC = steamId eventB →
  steamId eventD = steamId eventB →
  changed (getSteamCache db (steamId eventB)) eventB →
  differs eventB eventC →
  differs eventC eventD →
  let w1 := exec (handlePresenceChange bot (at_time t0) eventB) (initial db) in
  let w2 := exec (handlePresenceChange bot (at_time (t0 + 299)) eventC) w1 in
  let w3 := exec (handlePresenceChange bot (at_time (t0 + 300)) eventD) w2 in
  (∀ db' steamId now,
     canUpdate db' steamId 300 now = true
     ↔ rate_limits db' !! steamId = None
       ∨ ∃ record, rate_limits db' !! steamId = Some record
                   ∧ 300 ≤ now - RateLimit.last_update record)
  ∧ (fetches (w_trace w1) = destinations db
     ∧ sends (w_trace w1)
       = (λ c, (c, eventB, getSteamCache db (steamId eventB)))
         <$> notified dm eventB (getSteamCache db (steamId eventB))
               (destinations db)
     ∧ rate_limits (w_db w1) !! steamId eventB
       = Some {| RateLimit.last_update := t0; RateLimit.update_count := 1 |})
  ∧ (fetches (w_trace w2) = fetches (w_trace w1)
     ∧ sends (w_trace w2) = sends (w_trace w1)
     ∧ cacheReflects (w_db w2) eventC (t0 + 299)
     ∧ rate_limits (w_db w2) !! steamId eventB
       = Some {| RateLimit.last_update := t0; RateLimit.update_count := 1 |})
  ∧ (fetches (w_trace w3) = fetches (w_trace w2) ++ destinations db
     ∧ sends (w_trace w3)
       = sends (w_trace w2)
         ++ ((λ c, (c, eventD, Some (snapshotRow eventC (t0 + 299))))
             <$> notified dm eventD (Some (snapshotRow eventC (t0 + 299)))
                   (destinations db))
     ∧ cacheReflects (w_db w3) eventD (t0 + 300)
     ∧ rate_limits (w_db w3) !! steamId eventB
       = Some {| RateLimit.last_update := t0 + 300;
                 RateLimit.update_count := 2 |}).
Proof.
  intros Hdm Hl Hnone HC HD Hch HBC HCD w1 w2 w3.
  split; [intros; apply canUpdate_true_iff|].
  (* the event at t0 *)
  destruct (eligible_run bot (at_time t0) eventB (initial db) dm)
    as (Hdb1 & Hf1 & Hs1); [done..| |].
  { apply canUpdate_true_iff. by left. }
  fold w1 in Hdb1, Hf1, Hs1. simpl in Hdb1, Hf1, Hs1.
  assert (rate_limits (w_db w1) !! steamId eventB
          = Some {| RateLimit.last_update := t0; RateLimit.update_count := 1 |})
    as Hr1.
  { rewrite Hdb1, rate_after_commit, Hnone. done. }
  split; [done|].
  (* the event at t0 + 299 *)
  assert (linked (w_db w1) (steamId eventC)) as Hl1.
  { rewrite Hdb1, HC. exact Hl. }
  assert (cacheReflects (w_db w1) eventB t0) as Hc1.
  { rewrite Hdb1. apply (cache_after_commit db (at_time t0)). }
  destruct (throttled_run bot (at_time (t0 + 299)) eventC w1
              {| RateLimit.last_update := t0; RateLimit.update_count := 1 |})
    as (Hdb2 & Hf2 & Hs2); [done| |by rewrite HC|simpl; lia|].
  { rewrite HC, Hc1. destruct HBC; [left|right]; done. }
  fold w2 in Hdb2, Hf2, Hs2. simpl in Hdb2.
  assert (rate_limits (w_db w2) !! steamId eventB
          = Some {| RateLimit.last_update := t0; RateLimit.update_count := 1 |})
    as Hr2.
  { rewrite Hdb2. exact Hr1. }
  assert (cacheReflects (w_db w2) eventC (t0 + 299)) as Hc2.
  { rewrite Hdb2. apply cache_after_update. }
  split; [done|].
  (* the event at t0 + 300 *)
  assert (linked (w_db w2) (steamId eventD)) as Hl2.
  { rewrite Hdb2, HD, <- HC. exact Hl1. }
  destruct (eligible_run bot (at_time (t0 + 300)) eventD w2 dm)
    as (Hdb3 & Hf3 & Hs3); [done..| | |].
  { rewrite HD, <- HC, Hc2. destruct HCD; [left|right]; done. }
  { apply canUpdate_true_iff. right. eexists. rewrite HD.
    split; [exact Hr2|simpl; lia]. }
  fold w3 in Hdb3, Hf3, Hs3.
  assert (destinations (w_db w2) = destinations db) as Hd2.
  { rewrite Hdb2, Hdb1. done. }
  rewrite Hd2 in Hf3, Hs3. rewrite HD, <- HC, !Hc2 in Hs3.
  split; [done|]. split; [done|]. split.
  - rewrite Hdb3. apply (cache_after_commit _ (at_time (t0 + 300))).
  - rewrite Hdb3, <- HD, rate_after_commit, HD, Hr2. done.
Qed.

(** C6. An eligible changed event runs in two stages. First the two
    writes: in the world [mid] they leave, the cache holds the event's
    snapshot and the rate-limit record holds the time of the write and a
    count one higher. Only then the loop over the destinations, which runs
    in [mid]: it writes nothing, starts a delivery for every configured
    destination in turn whatever the outcome of the others, and calls
    [channel.send] on each destination that is found and text-based when
    the embed builds. The database at the end is the one of [mid], and it
    is the same whatever the Discord side does. *)
Theorem fanout_after_commit_isolated bot dm clk data w :
  discordManager bot = Some dm →
  linked (w_db w) (steamId data) →
  changed (getSteamCache (w_db w) (steamId data)) data →
  canUpdate (w_db w) (steamId data) 300 (at_canUpdate clk) = true →
  let prev := getSteamCache (w_db w) (steamId data) in
  let w' := exec (handlePresenceChange bot clk data) w in
  (∃ mid deliveries sentCount,
     w_trace mid
     = w_trace w ++ [StmtRun tbl_steam_cache (steamId data);
                     StmtRun tbl_rate_limits (steamId data)]
     ∧ cacheReflects (w_db mid) data (at_updateSteamCache clk)
     ∧ rate_limits (w_db mid) !! steamId data
       = Some {| RateLimit.last_update := at_recordUpdate clk;
                 RateLimit.update_count :=
                   default 0 (RateLimit.update_count
                              <$> rate_limits (w_db w) !! steamId data)
                   + 1 |}
     ∧ fanout bot (getAllServerConfigs (w_db mid)) data prev 0%nat mid
       = (inr sentCount, push mid deliveries)
     ∧ w' = push mid
              (deliveries
               ++ if (0 <? sentCount)%nat
                  then [Log info "Sent presence update for"] else [])
     ∧ writes deliveries = []
     ∧ fetches deliveries = destinations (w_db w)
     ∧ sends deliveries
       = (λ c, (c, data, prev)) <$> notified dm data prev (destinations (w_db w)))
  ∧ cacheReflects (w_db w') data (at_updateSteamCache clk)
  ∧ rate_limits (w_db w') !! steamId data
    = Some {| RateLimit.last_update := at_recordUpdate clk;
              RateLimit.update_count :=
                default 0 (RateLimit.update_count
                           <$> rate_limits (w_db w) !! steamId data)
                + 1 |}
  ∧ ∀ bot', w_db (exec (handlePresenceChange bot' clk data) w) = w_db w'.
Proof.
  intros Hdm Hl Hc%noMeaningfulChange_false Hr prev w'. subst prev w'.
  split; [|split; [|split]].
  - exists {| w_db := committed (w_db w) clk data;
              w_isShuttingDown := w_isShuttingDown w;
              w_trace := w_trace w ++ [StmtRun tbl_steam_cache (steamId data);
                                       StmtRun tbl_rate_limits (steamId data)] |}.
    eexists _, _. split; [reflexivity|].
    split; [apply cache_after_commit|]. split; [apply rate_after_commit|].
    split; [apply (fanout_run _ dm); exact Hdm|].
    split.
    + unfold exec. rewrite (handle_eligible _ _ _ _ dm) by done.
      unfold push, destinations, getAllServerConfigs. cbn [snd w_db w_trace].
      f_equal. rewrite <- !app_assoc. simpl. done.
    + cbn [w_db]. change (getAllServerConfigs (committed (w_db w) clk data))
        with (server_configs (w_db w)).
      rewrite fanoutTrace_writes, fanoutTrace_fetches, fanoutTrace_sends. done.
  - rewrite handle_eligible_db by done. apply cache_after_commit.
  - rewrite handle_eligible_db by done. apply rate_after_commit.
  - intros bot'. by rewrite !handle_eligible_db.
Qed.

(** C7. A 'user' event for an account that is not in the friends cache
    leaves the world as it was: nothing is cached, nothing is sent,
    whether or not the account is linked. *)
Theorem non_friend_event_dropped bot sm clk steamIdStr u w :
  steamIdStr ∉ SteamManager.friendsCache sm →
  onSteamUser bot sm clk steamIdStr u w = (inr (), w).
Proof.
  intros H. unfold onSteamUser, SteamManager.onUser.
  by rewrite bool_decide_eq_false_2.
Qed.

End Pipeline.

(** ** Exceptions and shutdown *)

Section Shutdown.

Import DatabaseManager SteamDiscordBot.

Lemma fanout_no_manager bot serverConfigs data prev sentCount w :
  discordManager bot = None →
  fanout bot serverConfigs data prev sentCount w
  = match serverConfigs with
    | [] => (inr sentCount, w)
    | _ :: _ =>
        (inl (JsError "TypeError"
                "Cannot read properties of null (reading 'sendPresenceUpdate')"),
         w)
    end.
Proof. intros H. destruct serverConfigs; simpl; by rewrite ?H. Qed.

(** An eligible changed event while [this.discordManager] is still
    [null]: with a destination configured, the first turn of the loop
    throws after both writes, and the handler's [catch] logs it. *)
Lemma handle_eligible_no_manager bot clk data w :
  discordManager bot = None →
  linked (w_db w) (steamId data) →
  noMeaningfulChange (getSteamCache (w_db w) (steamId data)) data = false →
  canUpdate (w_db w) (steamId data) 300 (at_canUpdate clk) = true →
  handlePresenceChange bot clk data w
  = (inr (),
     {| w_db := committed (w_db w) clk data;
        w_isShuttingDown := w_isShuttingDown w;
        w_trace :=
          w_trace w
          ++ [StmtRun tbl_steam_cache (steamId data);
              StmtRun tbl_rate_limits (steamId data)]
          ++ match server_configs (w_db w) with
             | [] => []
             | _ :: _ => [Log error "Error handling presence change:"]
             end |}).
Proof.
  intros Hdm Hl Hc Hr. unfold handlePresenceChange, try_catch.
  rewrite handle_eligible_try by done. unfold bind at 1.
  rewrite fanout_no_manager by done.
  destruct (server_configs (w_db w)); trace_norm; done.
Qed.

(** The handler returns normally on every path, takes no step of the
    shutdown sequence and leaves [isShuttingDown] alone. *)
Lemma handler_keeps_running bot clk data w :
  let w' := exec (handlePresenceChange bot clk data) w in
  fst (handlePresenceChange bot clk data w) = inr ()
  ∧ shutdownSteps (w_trace w') = shutdownSteps (w_trace w)
  ∧ w_isShuttingDown w' = w_isShuttingDown w.
Proof.
  intros w'. subst w'. unfold exec.
  destruct (getMappingBySteamId (w_db w) (steamId data)) as [m|] eqn:Hm.
  2: { by rewrite handle_not_linked. }
  assert (linked (w_db w) (steamId data)) as Hl by (by exists m).
  destruct (noMeaningfulChange (getSteamCache (w_db w) (steamId data)) data)
    eqn:Hc.
  { by rewrite handle_no_change. }
  destruct (canUpdate (w_db w) (steamId data) 300 (at_canUpdate clk)) eqn:Hr.
  2: { rewrite handle_throttled by done. cbn [fst snd w_trace w_isShuttingDown].
       rewrite shutdownSteps_app. simpl. by rewrite app_nil_r. }
  destruct (discordManager bot) as [dm|] eqn:Hdm.
  - rewrite (handle_eligible _ _ _ _ dm) by done.
    cbn [fst snd w_trace w_isShuttingDown].
    rewrite !shutdownSteps_app, fanoutTrace_shutdownSteps.
    destruct (0 <? _)%nat; simpl; by rewrite app_nil_r.
  - rewrite handle_eligible_no_manager by done.
    cbn [fst snd w_trace w_isShuttingDown].
    rewrite !shutdownSteps_app.
    destruct (server_configs (w_db w)); simpl; by rewrite app_nil_r.
Qed.

Lemma shutdown_already bot sig w :
  w_isShuttingDown w = true → shutdown bot sig w = (inr (), w).
Proof. intros H. unfold shutdown, bind, getShuttingDown. by rewrite H. Qed.

Lemma shutdown_run bot sig w :
  w_isShuttingDown w = false →
  shutdownSteps (w_trace (exec (shutdown bot sig) w))
  = shutdownSteps (w_trace w) ++ shutdownSequence bot.
Proof.
  intros H. unfold exec, shutdown, shutdownSequence.
  unfold bind at 1, getShuttingDown. rewrite H.
  destruct bot as [[sm|] [dm|]]; simpl;
    unfold SteamManager.logout, DiscordManager.destroy;
    repeat match goal with
      | |- context [SteamManager.isLoggedIn ?sm] =>
          destruct (SteamManager.isLoggedIn sm)
      | |- context [DiscordManager.destroy_resolves ?dm] =>
          destruct (DiscordManager.destroy_resolves dm)
      end;
    simpl; rewrite ?shutdownSteps_app; simpl; rewrite ?app_nil_r;
    rewrite <- ?app_assoc; done.
Qed.

Lemma onProcessEvent_steps bot sig w :
  shutdownSteps (w_trace (exec (onProcessEvent bot sig) w))
  = shutdownSteps (w_trace (exec (shutdown bot SIGINT) w)).
Proof.
  destruct (w_isShuttingDown w) eqn:H.
  - unfold exec. rewrite shutdown_already by done.
    destruct sig; simpl; rewrite ?shutdown_already by done; try done;
      unfold bind; simpl; rewrite shutdown_already by done; simpl;
      rewrite shutdownSteps_app; simpl; by rewrite app_nil_r.
  - rewrite shutdown_run by done.
    destruct sig; simpl; rewrite ?shutdown_run by done; try done;
      unfold exec, bind; simpl;
      match goal with
      | |- context [shutdown bot ?s ?w1] =>
          pose proof (shutdown_run bot s w1 H) as E; unfold exec in E;
          rewrite E
      end; simpl; rewrite shutdownSteps_app; simpl; by rewrite app_nil_r.
Qed.

(** C8, as amended. An exception raised inside [handlePresenceChange] is
    caught by the handler's own [catch] and logged at error level: the
    handler returns normally, takes no step of the shutdown sequence and
    does not set [isShuttingDown], so processing continues. The shutdown
    sequence (Steam logout when logged in, Discord client destroy, store
    close, exit) is what the process-level listeners run, and it is the
    same for SIGINT, SIGTERM, an uncaught exception and an unhandled
    rejection. *)
Theorem handler_errors_logged_process_errors_shut_down bot clk data sig w :
  let w' := exec (handlePresenceChange bot clk data) w in
  fst (handlePresenceChange bot clk data w) = inr ()
  ∧ shutdownSteps (w_trace w') = shutdownSteps (w_trace w)
  ∧ w_isShuttingDown w' = w_isShuttingDown w
  ∧ (∀ e w1, handlePresenceChange_try bot clk data w = (inl e, w1) →
             w' = push w1 [Log error "Error handling presence change:"])
  ∧ shutdownSteps (w_trace (exec (onProcessEvent bot sig) w))
    = shutdownSteps (w_trace (exec (onProcessEvent bot SIGTERM) w))
  ∧ shutdownSteps (w_trace (exec (onProcessEvent bot sig) (initial (w_db w))))
    = shutdownSequence bot.
Proof.
  intros w'.
  destruct (handler_keeps_running bot clk data w) as (H1 & H2 & H3).
  repeat split; try done.
  - intros e w1 E. subst w'. unfold exec, handlePresenceChange, try_catch.
    by rewrite E.
  - by rewrite !onProcessEvent_steps.
  - by rewrite onProcessEvent_steps, shutdown_run.
Qed.

End Shutdown.

(** ** The statements at the sample deployment *)

Section Samples.

Import DatabaseManager SteamDiscordBot.

(** Against C1 as stated: Alice is linked and cached as "Alice"; an event
    that only renames her reaches the handler and the cache keeps the old
    row, so it does not hold the event's snapshot, whatever the time. *)
Lemma cache_stale_after_unchanged_event :
  let w' := exec (handlePresenceChange Sample.bot (at_time 500) Sample.renamed)
              (initial Sample.seen) in
  linked Sample.seen (steamId Sample.renamed)
  ∧ getSteamCache (w_db w') Sample.alice
    = Some (snapshotRow Sample.online 10)
  ∧ ∀ now, ¬ cacheReflects (w_db w') Sample.renamed now.
Proof.
  split; [|split].
  - vm_compute. eauto.
  - vm_compute. reflexivity.
  - intros now H. vm_compute in H. discriminate H.
Qed.

Lemma cache_updated_on_changed_event_witness :
  linked Sample.seen Sample.alice
  ∧ cacheReflects
      (w_db (exec (handlePresenceChange Sample.bot (at_time 150) Sample.inGame)
               (initial Sample.seen)))
      Sample.inGame 150.
Proof.
  assert (linked Sample.seen Sample.alice) as Hl by (vm_compute; eauto).
  split; [exact Hl|].
  apply (cache_updated_on_changed_event Sample.bot (at_time 150)
           Sample.inGame (initial Sample.seen) Hl).
  vm_compute. right. discriminate.
Defined.

Lemma identical_snapshot_is_noop_witness :
  canUpdate Sample.seen Sample.alice 300 150 = false
  ∧ handlePresenceChange Sample.bot (at_time 150) Sample.online
      (initial Sample.seen)
    = (inr (), initial Sample.seen).
Proof.
  split; [reflexivity|].
  apply (identical_snapshot_is_noop Sample.bot (at_time 150) Sample.online
           (initial Sample.seen) (snapshotRow Sample.online 10)).
  - vm_compute. eauto.
  - reflexivity.
  - reflexivity.
  - reflexivity.
Defined.

Lemma throttled_event_updates_cache_only_witness :
  let w' := exec (handlePresenceChange Sample.bot (at_time 150) Sample.inGame)
              (initial Sample.seen) in
  cacheReflects (w_db w') Sample.inGame 150
  ∧ sends (w_trace w') = []
  ∧ fetches (w_trace w') = []
  ∧ writes (w_trace w') = [(tbl_steam_cache, Sample.alice)]
  ∧ rate_limits (w_db w') = rate_limits Sample.seen.
Proof.
  apply (throttled_event_updates_cache_only Sample.bot (at_time 150)
           Sample.inGame (initial Sample.seen)
           {| RateLimit.last_update := 100; RateLimit.update_count := 1 |}).
  - vm_compute. eauto.
  - vm_compute. right. discriminate.
  - reflexivity.
  - simpl. lia.
Defined.

Lemma rate_limit_boundary_witness :
  let w1 := exec (handlePresenceChange Sample.bot (at_time 0) Sample.online)
              (initial Sample.fresh) in
  let w2 := exec (handlePresenceChange Sample.bot (at_time 299) Sample.inGame)
              w1 in
  let w3 := exec (handlePresenceChange Sample.bot (at_time 300) Sample.away)
              w2 in
  fetches (w_trace w1) = [js "c1"; js "c2"]
  ∧ sends (w_trace w1) = [(js "c2", Sample.online, None)]
  ∧ fetches (w_trace w2) = fetches (w_trace w1)
  ∧ sends (w_trace w2) = sends (w_trace w1)
  ∧ fetches (w_trace w3) = [js "c1"; js "c2"; js "c1"; js "c2"]
  ∧ rate_limits (w_db w3) !! Sample.alice
    = Some {| RateLimit.last_update := 300; RateLimit.update_count := 2 |}.
Proof.
  destruct (rate_limit_boundary Sample.bot Sample.discord Sample.fresh 0
              Sample.online Sample.inGame Sample.away)
    as (_ & (Hf1 & Hs1 & _) & (Hf2 & Hs2 & _ & _) & (Hf3 & _ & _ & Hr3)).
  - reflexivity.
  - vm_compute. eauto.
  - reflexivity.
  - reflexivity.
  - reflexivity.
  - exact I.
  - right. discriminate.
  - left. discriminate.
  - intros w1 w2 w3. subst w1 w2 w3.
    split; [exact Hf1|]. split; [exact Hs1|]. split; [exact Hf2|].
    split; [exact Hs2|]. split; [|exact Hr3].
    exact (eq_trans Hf3
             (f_equal (λ l, l ++ destinations Sample.fresh)
                (eq_trans Hf2 Hf1))).
Defined.

Lemma fanout_after_commit_isolated_witness :
  let w' := exec (handlePresenceChange Sample.bot (at_time 0) Sample.online)
              (initial Sample.fresh) in
  (∃ mid deliveries,
     w_trace mid = [StmtRun tbl_steam_cache Sample.alice;
                    StmtRun tbl_rate_limits Sample.alice]
     ∧ getSteamCache (w_db mid) Sample.alice
       = Some (snapshotRow Sample.online 0)
     ∧ rate_limits (w_db mid) !! Sample.alice
       = Some {| RateLimit.last_update := 0; RateLimit.update_count := 1 |}
     ∧ w_db w' = w_db mid
     ∧ fetches deliveries = [js "c1"; js "c2"]
     ∧ sends deliveries = [(js "c2", Sample.online, None)])
  ∧ getSteamCache (w_db w') Sample.alice = Some (snapshotRow Sample.online 0)
  ∧ rate_limits (w_db w') !! Sample.alice
    = Some {| RateLimit.last_update := 0; RateLimit.update_count := 1 |}.
Proof.
  destruct (fanout_after_commit_isolated Sample.bot Sample.discord (at_time 0)
              Sample.online (initial Sample.fresh))
    as ((mid & deliveries & sentCount & Ht & Hc & Hr & _ & Hw & _ & Hf & Hs)
        & Hc' & Hr' & _).
  - reflexivity.
  - vm_compute. eauto.
  - exact I.
  - reflexivity.
  - split; [|split; [exact Hc' | exact Hr']].
    exists mid, deliveries.
    split; [exact Ht|]. split; [exact Hc|]. split; [exact Hr|].
    split; [exact (f_equal w_db Hw)|]. split; [exact Hf | exact Hs].
Defined.

Lemma non_friend_event_dropped_witness :
  linked Sample.seen Sample.alice
  ∧ onSteamUser Sample.bot Sample.steam (at_time 500) Sample.alice
      Sample.persona (initial Sample.seen)
    = (inr (), initial Sample.seen).
Proof.
  split; [vm_compute; eauto|].
  apply (non_friend_event_dropped Sample.bot Sample.steam (at_time 500)
           Sample.alice Sample.persona (initial Sample.seen)).
  change (Sample.alice ∉ ({[ Sample.bob ]} : gset jsstring)).
  intros H%elem_of_singleton. discriminate H.
Defined.

(** Against C8 as stated: before the Discord manager exists, an eligible
    event throws a TypeError in the loop, after both writes; the handler
    logs it and returns, no step of the shutdown sequence is taken and
    [isShuttingDown] stays false, while SIGTERM in the same world runs
    the sequence. *)
Lemma handler_exception_is_swallowed :
  let run := handlePresenceChange Sample.early (at_time 0) Sample.online in
  (∃ e w1, handlePresenceChange_try Sample.early (at_time 0) Sample.online
             (initial Sample.fresh) = (inl e, w1))
  ∧ fst (run (initial Sample.fresh)) = inr ()
  ∧ w_trace (exec run (initial Sample.fresh))
    = [StmtRun tbl_steam_cache Sample.alice;
       StmtRun tbl_rate_limits Sample.alice;
       Log error "Error handling presence change:"]
  ∧ w_isShuttingDown (exec run (initial Sample.fresh)) = false
  ∧ shutdownSteps (w_trace (exec run (initial Sample.fresh))) = []
  ∧ shutdownSteps
      (w_trace (exec (onProcessEvent Sample.early SIGTERM)
                  (initial Sample.fresh)))
    = [LogOff; DbClose; ProcessExit 0].
Proof.
  split; [|repeat split; vm_compute; reflexivity].
  eexists _, _. vm_compute. reflexivity.
Qed.

Lemma handler_errors_logged_process_errors_shut_down_witness :
  let run := handlePresenceChange Sample.early (at_time 0) Sample.online in
  exec run (initial Sample.fresh)
  = push (push (initial (committed Sample.fresh (at_time 0) Sample.online))
            [StmtRun tbl_steam_cache Sample.alice;
             StmtRun tbl_rate_limits Sample.alice])
      [Log error "Error handling presence change:"].
Proof.
  refine (proj1 (proj2 (proj2 (proj2
            (handler_errors_logged_process_errors_shut_down Sample.early
               (at_time 0) Sample.online SIGINT (initial Sample.fresh)))))
            (JsError "TypeError"
               "Cannot read properties of null (reading 'sendPresenceUpdate')")
            _ _).
  reflexivity.
Defined.

End Samples.

(** ** The identifier parser *)

Section Parser.

Import JsString.

Lemma stripPrefix_Some p s rest :
  stripPrefix p s = Some rest ↔ s = p ++ rest.
Proof.
  revert s. induction p as [|a p IH]; intros s; simpl.
  - split; [by intros [= ->] | by intros ->].
  - destruct s as [|b s]; [done|].
    destruct (N.eqb_spec a b) as [->|Hne].
    + rewrite IH. split; [by intros -> | by intros [= ->]].
    + split; [done | intros [= ? ?]; done].
Qed.

Lemma takeWhile_Forall cls s : Forall (λ c, cls c = true) (takeWhile cls s).
Proof.
  induction s as [|c s IH]; simpl; [constructor|].
  destruct (cls c) eqn:E; by constructor.
Qed.

Lemma takeWhile_prefix cls s : ∃ post, s = takeWhile cls s ++ post.
Proof.
  induction s as [|c s [post IH]]; simpl; [by exists []|].
  destruct (cls c); [|by eexists].
  exists post. simpl. by rewrite <- IH.
Qed.

Lemma matchHere_Some lit cls s cap :
  matchHere lit cls s = Some cap →
  cap ≠ [] ∧ Forall (λ c, cls c = true) cap ∧ ∃ post, s = lit ++ cap ++ post.
Proof.
  unfold matchHere.
  destruct (stripPrefix lit s) as [rest|] eqn:E; [|done].
  apply stripPrefix_Some in E as ->.
  pose proof (takeWhile_Forall cls rest) as HF.
  destruct (takeWhile_prefix cls rest) as [post Hpost].
  destruct (takeWhile cls rest) as [|c cap'] eqn:Et; [done|].
  intros [= <-]. split; [done|]. split; [done|].
  exists post. by rewrite <- Hpost.
Qed.

Lemma matchHere_None lit cls c post :
  cls c = true → matchHere lit cls (lit ++ c :: post) ≠ None.
Proof.
  intros Hc. unfold matchHere.
  rewrite (proj2 (stripPrefix_Some lit _ (c :: post)) eq_refl).
  simpl. by rewrite Hc.
Qed.

(** A match of [lit(cls+)] gives a non-empty capture made of the class,
    found in the subject after the literal. *)
Lemma matchCapture_Some lit cls s cap :
  matchCapture lit cls s = Some cap →
  cap ≠ [] ∧ Forall (λ c, cls c = true) cap
  ∧ ∃ pre post, s = pre ++ lit ++ cap ++ post.
Proof.
  induction s as [|x s IH].
  - simpl. destruct (matchHere lit cls []) eqn:E; [|done].
    intros [= <-]. apply matchHere_Some in E as (? & ? & post & Hs).
    split; [done|]. split; [done|]. by exists [], post.
  - cbn [matchCapture]. destruct (matchHere lit cls (x :: s)) eqn:E.
    + intros [= <-]. apply matchHere_Some in E as (? & ? & post & Hs).
      split; [done|]. split; [done|]. by exists [], post.
    + intros H. destruct (IH H) as (? & ? & pre & post & Hs).
      split; [done|]. split; [done|]. exists (x :: pre), post.
      by rewrite Hs.
Qed.

(** The pattern matches exactly when the literal followed by one unit of
    the class occurs somewhere in the subject. *)
Lemma matchCapture_is_Some lit cls s :
  is_Some (matchCapture lit cls s)
  ↔ ∃ pre c post, s = pre ++ lit ++ c :: post ∧ cls c = true.
Proof.
  split.
  - intros [cap H]. apply matchCapture_Some in H as (Hne & HF & pre & post & ->).
    destruct cap as [|c cap]; [done|].
    exists pre, c, (cap ++ post). split; [done|]. by inversion HF.
  - intros (pre & c & post & -> & Hc).
    induction pre as [|x pre IH].
    + pose proof (matchHere_None lit cls c post Hc) as Hn.
      simpl. destruct (lit ++ c :: post); simpl;
        destruct (matchHere _ _ _); done.
    + simpl. destruct (matchHere lit cls _); [done|]. exact IH.
Qed.

Lemma isSteamId64_true s :
  isSteamId64 s = true
  ↔ ∃ rest, s = js "7656119" ++ rest ∧ length rest = 10%nat
            ∧ Forall (λ c, isDigit c = true) rest.
Proof.
  unfold isSteamId64.
  destruct (stripPrefix (js "7656119") s) as [rest|] eqn:E.
  - apply stripPrefix_Some in E as ->.
    rewrite andb_true_iff, Nat.eqb_eq, List.forallb_forall, <- List.Forall_forall.
    split.
    + intros [? ?]. by exists rest.
    + intros (rest' & [= <-]%app_inv_head & ? & ?). done.
  - split; [done|]. intros (rest & -> & _).
    by rewrite (proj2 (stripPrefix_Some _ _ rest) eq_refl) in E.
Qed.

Lemma isSteamId64_numeric s : isSteamId64 s = true → numeric s.
Proof.
  intros (rest & -> & _ & HF)%isSteamId64_true. split; [done|].
  apply Forall_app. split; [|done].
  repeat constructor.
Qed.

Lemma trimStart_split s :
  ∃ lead, s = lead ++ trimStart s
          ∧ Forall (λ c, isWhiteSpace c = true) lead
          ∧ ∀ c r, trimStart s = c :: r → isWhiteSpace c = false.
Proof.
  induction s as [|x s (lead & Hs & HF & Hh)]; simpl.
  - exists []. split; [done|]. split; [constructor|]. intros c r [=].
  - destruct (isWhiteSpace x) eqn:E.
    + exists (x :: lead). split; [simpl; by f_equal|].
      split; [by constructor | done].
    + exists []. split; [done|]. split; [constructor|].
      by intros c r [= <- <-].
Qed.

(** [trim] removes a run of white space at either end and nothing else,
    and leaves no white space at either end. *)
Lemma trim_split identifier :
  ∃ lead trail,
    identifier = lead ++ trim identifier ++ trail
    ∧ Forall (λ c, isWhiteSpace c = true) lead
    ∧ Forall (λ c, isWhiteSpace c = true) trail
    ∧ (∀ c r, trim identifier = c :: r → isWhiteSpace c = false)
    ∧ (∀ c r, trim identifier = r ++ [c] → isWhiteSpace c = false).
Proof.
  unfold trim, trimEnd.
  destruct (trimStart_split identifier) as (lead & Hs & HF & Hh).
  destruct (trimStart_split (rev (trimStart identifier)))
    as (tl & Ht & HFt & Hht).
  assert (trimStart identifier
          = rev (trimStart (rev (trimStart identifier))) ++ rev tl) as Hsplit.
  { rewrite <- rev_app_distr, <- Ht. by rewrite rev_involutive. }
  exists lead, (rev tl). split; [by rewrite <- Hsplit|].
  split; [done|]. split; [by apply List.Forall_rev|]. split.
  - intros c r E. rewrite E in Hsplit. by apply (Hh c (r ++ rev tl)).
  - intros c r E. apply (Hht c (rev r)).
    rewrite <- (rev_involutive (trimStart _)), E, rev_app_distr. done.
Qed.

Lemma isSteamId64_shape s : isSteamId64 s = true ↔ steamId64Shape s.
Proof. apply isSteamId64_true. Qed.

Lemma takeWhile_rest cls s :
  ∃ post, s = takeWhile cls s ++ post
          ∧ ∀ c post', post = c :: post' → cls c = false.
Proof.
  induction s as [|x s (post & Hs & Hp)]; simpl.
  - exists []. split; [done|]. intros c post' [=].
  - destruct (cls x) eqn:E.
    + exists post. split; [simpl; by f_equal | done].
    + exists (x :: s). split; [done|]. by intros c post' [= <- <-].
Qed.

Lemma matchHere_capture lit cls s cap :
  matchHere lit cls s = Some cap →
  cap ≠ [] ∧ Forall (λ c, cls c = true) cap
  ∧ ∃ post, s = lit ++ cap ++ post
            ∧ ∀ c post', post = c :: post' → cls c = false.
Proof.
  unfold matchHere.
  destruct (stripPrefix lit s) as [rest|] eqn:E; [|done].
  apply stripPrefix_Some in E as ->.
  pose proof (takeWhile_Forall cls rest) as HF.
  destruct (takeWhile_rest cls rest) as (post & Hpost & Hstop).
  destruct (takeWhile cls rest) as [|c cap'] eqn:Et; [done|].
  intros [= <-]. split; [done|]. split; [done|].
  exists post. by rewrite <- Hpost.
Qed.

(** The capture of [matchCapture] is the one the pattern is said to
    give: leftmost place, longest run. *)
Lemma matchCapture_first lit cls s cap :
  matchCapture lit cls s = Some cap → firstCapture lit cls s cap.
Proof.
  induction s as [|x s IH].
  - simpl. destruct (matchHere lit cls []) eqn:E; [|done].
    intros [= <-]. apply matchHere_capture in E as (? & ? & post & Hs & Hstop).
    exists [], post. repeat split; try done. intros; simpl; lia.
  - cbn [matchCapture]. destruct (matchHere lit cls (x :: s)) eqn:E.
    + intros [= <-].
      apply matchHere_capture in E as (? & ? & post & Hs & Hstop).
      exists [], post. repeat split; try done. intros; simpl; lia.
    + intros H. destruct (IH H) as (pre & post & Hs & ? & ? & ? & Hleft).
      exists (x :: pre), post. split; [by rewrite Hs|].
      repeat split; try done.
      intros pre' c post' Hocc Hc. destruct pre' as [|y pre'].
      * exfalso. simpl in Hocc. rewrite Hocc in E.
        by apply (matchHere_None lit cls c post' Hc).
      * injection Hocc as _ Hocc. simpl.
        specialize (Hleft pre' c post' Hocc Hc). lia.
Qed.

Lemma run_unique (cls : N → bool) a b p q :
  Forall (λ c, cls c = true) a → Forall (λ c, cls c = true) b →
  (∀ c p', p = c :: p' → cls c = false) →
  (∀ c q', q = c :: q' → cls c = false) →
  a ++ p = b ++ q → a = b.
Proof.
  revert b. induction a as [|x a IH]; intros b Ha Hb Hp Hq E.
  - destruct b as [|y b]; [done|]. simpl in E.
    apply Forall_cons in Hb as [Hy _].
    specialize (Hp y (b ++ q) E). congruence.
  - destruct b as [|y b]; simpl in E.
    + apply Forall_cons in Ha as [Hx _].
      specialize (Hq x (a ++ p) (eq_sym E)). congruence.
    + injection E as -> E.
      apply Forall_cons in Ha as [_ Ha]. apply Forall_cons in Hb as [_ Hb].
      f_equal. by apply IH.
Qed.

(** The words of [firstCapture] fix the capture. *)
Lemma firstCapture_unique lit cls s cap cap' :
  firstCapture lit cls s cap → firstCapture lit cls s cap' → cap = cap'.
Proof.
  intros (pre & post & Hs & Hne & HF & Hstop & Hleft)
         (pre' & post' & Hs' & Hne' & HF' & Hstop' & Hleft').
  assert (length pre = length pre') as Hlen.
  { apply Nat.le_antisymm.
    - destruct cap' as [|c r]; [done|]. apply (Hleft pre' c (r ++ post')).
      + by rewrite Hs'.
      + by apply Forall_cons in HF' as [? _].
    - destruct cap as [|c r]; [done|]. apply (Hleft' pre c (r ++ post)).
      + by rewrite Hs.
      + by apply Forall_cons in HF as [? _]. }
  rewrite Hs' in Hs. apply app_inj_1 in Hs as [_ Hs]; [|done].
  apply app_inv_head in Hs. symmetry.
  exact (run_unique cls cap' cap post' post HF' HF Hstop' Hstop Hs).
Qed.

End Parser.

(** ** The link store and the link command *)

Section Link.

Import DatabaseManager SteamCommand.

Lemma find_key_unique {A K} `{EqDecision K} (f : A → K) (l : list A) row :
  NoDup (f <$> l) → row ∈ l →
  List.find (λ r, bool_decide (f r = f row)) l = Some row.
Proof.
  induction l as [|a l IH]; simpl; [by intros _ ?%elem_of_nil|].
  intros [Hnotin Hnd]%NoDup_cons [->|Hin]%elem_of_cons.
  - by rewrite bool_decide_eq_true_2.
  - rewrite bool_decide_eq_false_2; [by apply IH|].
    intros E. apply Hnotin. rewrite E. apply list_elem_of_fmap. eauto.
Qed.

Lemma find_key_Some {A K} `{EqDecision K} (f : A → K) (l : list A) k row :
  List.find (λ r, bool_decide (f r = k)) l = Some row → row ∈ l ∧ f row = k.
Proof.
  intros [Hin Hk]%List.find_some. split; [by apply list_elem_of_In|].
  by apply bool_decide_eq_true in Hk.
Qed.

Lemma NoDup_fmap_filter {A K} (f : A → K) (P : A → Prop)
    `{∀ x, Decision (P x)} (l : list A) :
  NoDup (f <$> l) → NoDup (f <$> filter P l).
Proof.
  induction l as [|a l IH]; simpl; [done|].
  intros [Hnotin Hnd]%NoDup_cons. rewrite filter_cons.
  destruct (decide (P a)); [|by apply IH].
  simpl. apply NoDup_cons. split; [|by apply IH].
  intros (y & Hy & [_ Hin]%list_elem_of_filter)%list_elem_of_fmap.
  apply Hnotin, list_elem_of_fmap. eauto.
Qed.

(** [INSERT OR REPLACE] keeps both keys unique. *)
Lemma linkUser_bijective db discordId steamId now :
  bijective db → bijective (linkUser db discordId steamId now).
Proof.
  intros [Hd Hs]. unfold bijective, linkUser. simpl. rewrite !fmap_app.
  split; apply NoDup_app; (split; [by apply NoDup_fmap_filter|]);
    (split; [|apply NoDup_singleton]);
    intros x (y & -> & [[Hy1 Hy2] _]%list_elem_of_filter)%list_elem_of_fmap;
    simpl; intros E%list_elem_of_singleton; done.
Qed.

(** The five ways through [handleLink]. *)
Lemma handleLink_run sm now discordId identifier w :
  handleLink sm now discordId identifier w
  = match parseSteamIdentifier identifier with
    | inl _ => (inr InvalidIdentifier, w)
    | inr steamId64 =>
        if negb (SteamManager.isFriend sm steamId64)
        then (inr (NotFriends steamId64), w)
        else if match getUserMapping (w_db w) discordId with
                | Some row =>
                    negb (bool_decide (UserMapping.steam_id row = steamId64))
                | None => false
                end
        then (inr AlreadyLinked, w)
        else if match getMappingBySteamId (w_db w) steamId64 with
                | Some row =>
                    negb (bool_decide (UserMapping.discord_id row = discordId))
                | None => false
                end
        then (inr LinkedToAnother, w)
        else (inr (Linked steamId64),
              {| w_db := linkUser (w_db w) discordId steamId64 now;
                 w_isShuttingDown := w_isShuttingDown w;
                 w_trace := w_trace w
                            ++ [StmtRun tbl_user_mappings discordId;
                                Log info "Linked Discord user"] |})
    end.
Proof.
  unfold handleLink.
  destruct (parseSteamIdentifier identifier) as [e|steamId64]; [done|].
  destruct (negb (SteamManager.isFriend sm steamId64)); [done|].
  unfold bind at 1, query at 1.
  destruct (match getUserMapping (w_db w) discordId with
            | Some _ => _ | None => _ end); [done|].
  unfold bind at 1, query at 1.
  destruct (match getMappingBySteamId (w_db w) steamId64 with
            | Some _ => _ | None => _ end); [done|].
  trace_norm. unfold run. simpl. by rewrite <- ?app_assoc.
Qed.

(** C2, as amended. A link request whose identifier parses, made while
    the Discord user is bound to another Steam account or the Steam account
    is bound to another Discord user, is refused and leaves the world, so
    every link record, as it was: with one of the two already-linked
    refusals when the account is a friend of the bot, so that the request
    reaches the store check, and with the not-friends refusal when it is
    not, because the friendship gate comes first. Every run of the command
    keeps both keys of the link table unique, and displaces no link other
    than the caller's own link to the same account, which it rewrites. *)
Theorem link_conflict_refused sm now discordId identifier steamId64 w row :
  bijective (w_db w) →
  parseSteamIdentifier identifier = inr steamId64 →
  row ∈ user_mappings (w_db w) →
  (UserMapping.discord_id row = discordId
   ∧ UserMapping.steam_id row ≠ steamId64)
  ∨ (UserMapping.steam_id row = steamId64
     ∧ UserMapping.discord_id row ≠ discordId) →
  (∃ r, handleLink sm now discordId identifier w = (inr r, w)
        ∧ if SteamManager.isFriend sm steamId64 then AlreadyLinkedOther r
          else r = NotFriends steamId64)
  ∧ ∀ sm' now' discordId' identifier' w',
      bijective (w_db w') →
      let after := w_db (exec (handleLink sm' now' discordId' identifier') w') in
      bijective after
      ∧ ∀ other,
          other ∈ user_mappings (w_db w') →
          other ∈ user_mappings after
          ∨ (UserMapping.discord_id other = discordId'
             ∧ parseSteamIdentifier identifier'
               = inr (UserMapping.steam_id other)).
Proof.
  intros [Hd Hs] Hparse Hin Hconflict. split.
  - rewrite handleLink_run, Hparse.
    destruct (SteamManager.isFriend sm steamId64); simpl; [|by eexists].
    destruct Hconflict as [[<- Hne] | [<- Hne]].
    + unfold getUserMapping.
      rewrite (find_key_unique UserMapping.discord_id) by done.
      rewrite bool_decide_eq_false_2 by done. simpl. by exists AlreadyLinked.
    + destruct (match getUserMapping (w_db w) discordId with
                | Some _ => _ | None => _ end); [by exists AlreadyLinked|].
      unfold getMappingBySteamId.
      rewrite (find_key_unique UserMapping.steam_id) by done.
      rewrite bool_decide_eq_false_2 by done. simpl. by exists LinkedToAnother.
  - clear. intros sm now discordId identifier w [Hd Hs] after. subst after.
    unfold exec. rewrite handleLink_run.
    destruct (parseSteamIdentifier identifier) as [e|steamId64];
      [by split; [|left]|].
    destruct (negb (SteamManager.isFriend sm steamId64));
      [by split; [|left]|].
    destruct (getUserMapping (w_db w) discordId) as [mine|] eqn:Hmine;
      [destruct (bool_decide_reflect (UserMapping.steam_id mine = steamId64))
         as [Hsame|?]; simpl; [|by split; [|left]] |];
      (destruct (getMappingBySteamId (w_db w) steamId64) as [theirs|]
         eqn:Htheirs;
       [destruct (bool_decide_reflect
                    (UserMapping.discord_id theirs = discordId))
          as [Hsame'|?]; simpl; [|by split; [|left]] |]);
      (split; [by apply linkUser_bijective|]);
      intros other Hother; simpl;
      destruct (decide (UserMapping.discord_id other = discordId)) as [Ed|Ed];
      destruct (decide (UserMapping.steam_id other = steamId64)) as [Es|Es];
      try (by right; rewrite Es);
      try (left; apply elem_of_app; left; apply list_elem_of_filter; done).
    all: exfalso.
    all: try (rewrite <- Ed in Hmine; unfold getUserMapping in Hmine;
              rewrite (find_key_unique UserMapping.discord_id) in Hmine
                by done; congruence).
    all: try (rewrite <- Es in Htheirs; unfold getMappingBySteamId in Htheirs;
              rewrite (find_key_unique UserMapping.steam_id) in Htheirs
                by done; congruence).
Qed.

End Link.

Section Identifier.

Import DatabaseManager SteamCommand.

(** C10. For every input, with [s] the trimmed input (the input without
    the white space at its two ends), the parser either returns a
    non-empty run of ASCII digits or throws. It returns [s]
    itself exactly when [s] is seventeen digits beginning with 7656119.
    Otherwise, when [s] contains steamcommunity.com/profiles/ followed by
    a digit, it returns the captured digits: the whole run of digits after
    the leftmost such place. Otherwise it throws: the custom-URL error when
    [s] contains steamcommunity.com/id/ followed by a unit other than a
    slash, the invalid-format error for every other input. So every row
    the link command adds to the link table has a numeric [steam_id]. *)
Theorem parseSteamIdentifier_numeric_or_throws identifier :
  let s := JsString.trim identifier in
  let profiles := js "steamcommunity.com/profiles/" in
  (∃ lead trail,
     identifier = lead ++ s ++ trail
     ∧ Forall (λ c, JsString.isWhiteSpace c = true) lead
     ∧ Forall (λ c, JsString.isWhiteSpace c = true) trail
     ∧ (∀ c r, s = c :: r → JsString.isWhiteSpace c = false)
     ∧ (∀ c r, s = r ++ [c] → JsString.isWhiteSpace c = false))
  ∧ match parseSteamIdentifier identifier with
  | inr id =>
      numeric id
      ∧ ((id = s ∧ steamId64Shape s)
         ∨ (¬ steamId64Shape s
            ∧ firstCapture profiles JsString.isDigit s id))
  | inl e =>
      ¬ steamId64Shape s
      ∧ ¬ (∃ pre c post,
             s = pre ++ profiles ++ c :: post ∧ JsString.isDigit c = true)
      ∧ (e = CustomUrlNotSupported
         ↔ ∃ pre c post,
             s = pre ++ js "steamcommunity.com/id/" ++ c :: post
             ∧ c ≠ 47%N)
  end
  ∧ (steamId64Shape s → parseSteamIdentifier identifier = inr s)
  ∧ (∀ digits,
       ¬ steamId64Shape s →
       firstCapture profiles JsString.isDigit s digits →
       parseSteamIdentifier identifier = inr digits)
  ∧ ∀ sm now discordId w added,
      added ∈ user_mappings
                (w_db (exec (handleLink sm now discordId identifier) w)) →
      added ∈ user_mappings (w_db w) ∨ numeric (UserMapping.steam_id added).
Proof.
  intros s profiles.
  assert (∀ id, parseSteamIdentifier identifier = inr id → numeric id) as Hnum.
  { unfold parseSteamIdentifier. fold s. intros id.
    destruct (isSteamId64 s) eqn:E64.
    { intros [= <-]. by apply isSteamId64_numeric. }
    destruct (profileMatch s) as [digits|] eqn:Ep.
    - intros [= <-]. apply matchCapture_Some in Ep as (? & ? & _). done.
    - by destruct (customMatch s). }
  split; [apply trim_split|].
  split; [|split; [|split]].
  - destruct (parseSteamIdentifier identifier) as [e|id] eqn:Hp.
    + unfold parseSteamIdentifier in Hp. fold s in Hp.
      destruct (isSteamId64 s) eqn:E64; [done|].
      destruct (profileMatch s) as [digits|] eqn:Ep; [done|].
      split; [|split].
      * intros H%isSteamId64_shape. congruence.
      * intros H%matchCapture_is_Some. unfold profileMatch in Ep.
        fold profiles in Ep. rewrite Ep in H. by destruct H.
      * assert (is_Some (customMatch s)
                ↔ ∃ pre c post,
                    s = pre ++ js "steamcommunity.com/id/" ++ c :: post
                    ∧ c ≠ 47%N) as <-.
        { unfold customMatch. rewrite matchCapture_is_Some.
          unfold JsString.notSlash.
          split; intros (pre & c & post & ? & Hc); exists pre, c, post;
            (split; [done|]); destruct (N.eqb_spec c 47); done. }
        destruct (customMatch s); injection Hp as <-;
          (split; [done|]); intros []; done.
    + split; [by apply Hnum|].
      unfold parseSteamIdentifier in Hp. fold s in Hp.
      destruct (isSteamId64 s) eqn:E64.
      * injection Hp as <-. left. split; [done|].
        by apply isSteamId64_shape.
      * destruct (profileMatch s) as [digits|] eqn:Ep;
          [|by destruct (customMatch s)].
        injection Hp as <-. right. split.
        -- intros H%isSteamId64_shape. congruence.
        -- by apply matchCapture_first.
  - intros H%isSteamId64_shape. unfold parseSteamIdentifier. fold s.
    by rewrite H.
  - intros digits Hshape Hcap. unfold parseSteamIdentifier. fold s.
    destruct (isSteamId64 s) eqn:E64;
      [by apply isSteamId64_shape in E64|].
    destruct (profileMatch s) as [found|] eqn:Ep.
    + f_equal. apply (firstCapture_unique profiles JsString.isDigit s);
        [by apply matchCapture_first | done].
    + exfalso.
      assert (is_Some (profileMatch s)) as [? Hsome]; [|congruence].
      apply matchCapture_is_Some.
      destruct Hcap as (pre & post & Hs & Hne & HF & _).
      destruct digits as [|c r]; [done|].
      exists pre, c, (r ++ post). split; [done|].
      by apply Forall_cons in HF as [? _].
  - intros sm now discordId w added. unfold exec. rewrite handleLink_run.
    destruct (parseSteamIdentifier identifier) as [e|id]; [by left|].
    repeat (match goal with
            | |- context [if ?b then _ else _] => destruct b
            end; [by left|]).
    simpl. intros [[_ Hin]%list_elem_of_filter | ->%list_elem_of_singleton]
             %elem_of_app; [by left|].
    right. by apply Hnum.
Qed.

Lemma parseSteamIdentifier_numeric_or_throws_witness :
  let w' := exec (handleLink Sample.steam 7 (js "u2")
                    (js " https://steamcommunity.com/profiles/76561198000000002/ "))
              (initial Sample.seen) in
  parseSteamIdentifier
    (js " https://steamcommunity.com/profiles/76561198000000002/ ")
  = inr Sample.bob
  ∧ user_mappings (w_db w')
    = [Sample.link (js "u1") Sample.alice;
       {| UserMapping.discord_id := js "u2";
          UserMapping.steam_id := Sample.bob;
          UserMapping.linked_at := 7;
          UserMapping.updated_at := 7 |}]
  ∧ ∀ added, added ∈ user_mappings (w_db w') →
             added ∈ user_mappings Sample.seen
             ∨ numeric (UserMapping.steam_id added).
Proof.
  split; [reflexivity|]. split.
  - reflexivity.
  - apply (proj2 (parseSteamIdentifier_numeric_or_throws
             (js " https://steamcommunity.com/profiles/76561198000000002/ "))).
Defined.

(** Against C2 as stated: Discord user u1 is bound to Alice and asks for
    Carol's account; Discord user u2 asks for Alice's account, which is
    bound to u1. Neither account is a friend of the bot, so both requests
    stop at the friendship gate: the reply is the not-friends one, not an
    already-linked one. The link records are as they were. *)
Lemma conflicting_link_of_non_friend_is_not_friends :
  getUserMapping Sample.seen (js "u1")
  = Some (Sample.link (js "u1") Sample.alice)
  ∧ Sample.alice ≠ Scene.carol
  ∧ handleLink Sample.steam 7 (js "u1") (js "76561198000000003")
      (initial Sample.seen)
    = (inr (NotFriends Scene.carol), initial Sample.seen)
  ∧ ¬ AlreadyLinkedOther (NotFriends Scene.carol)
  ∧ getMappingBySteamId Sample.seen Sample.alice
    = Some (Sample.link (js "u1") Sample.alice)
  ∧ handleLink Sample.steam 7 (js "u2") (js "76561198000000001")
      (initial Sample.seen)
    = (inr (NotFriends Sample.alice), initial Sample.seen)
  ∧ ¬ AlreadyLinkedOther (NotFriends Sample.alice).
Proof.
  split; [reflexivity|]. split; [discriminate|].
  split; [vm_compute; reflexivity|]. split; [intros []|].
  split; [reflexivity|]. split; [vm_compute; reflexivity | intros []].
Qed.

Lemma link_conflict_refused_witness :
  bijective Sample.seen
  ∧ SteamManager.isFriend Sample.steam Sample.bob = true
  ∧ ∃ r, handleLink Sample.steam 7 (js "u1") (js "76561198000000002")
           (initial Sample.seen) = (inr r, initial Sample.seen)
         ∧ AlreadyLinkedOther r.
Proof.
  assert (bijective Sample.seen) as Hb.
  { split; apply NoDup_singleton. }
  split; [exact Hb|]. split; [reflexivity|].
  apply (link_conflict_refused Sample.steam 7 (js "u1")
           (js "76561198000000002") Sample.bob (initial Sample.seen)
           (Sample.link (js "u1") Sample.alice)).
  - exact Hb.
  - reflexivity.
  - apply list_elem_of_here.
  - left. split; [reflexivity | discriminate].
Defined.

End Identifier.

(** ** The Steam login *)

Section SecondFactor.

Import SteamManager.

Variable generateAuthCode : jsstring → Z → jsstring.

Lemma onSteamGuard_with_seed sm secret now lastCodeWrong :
  JsString.truthy (sharedSecret (cfg sm)) = Some secret →
  ∃ out, onSteamGuard generateAuthCode sm now lastCodeWrong = (sm, Pending, out)
         ∧ codesSubmitted out = [generateAuthCode secret now].
Proof.
  intros H. unfold onSteamGuard. rewrite H. eexists. split; [done|].
  unfold codesSubmitted. rewrite omap_app. by destruct lastCodeWrong.
Qed.

Lemma deliver_challenges sm secret times :
  JsString.truthy (sharedSecret (cfg sm)) = Some secret →
  ∃ out, deliver generateAuthCode (sm, Pending) (challenges times)
         = (sm, Pending, out)
         ∧ codesSubmitted out
           = (λ '(now, _), generateAuthCode secret now) <$> times.
Proof.
  intros H. induction times as [|[now wrong] times (out' & E & Hc)]; simpl.
  - by exists [].
  - destruct (onSteamGuard_with_seed sm secret now wrong H) as (out & E1 & Hc1).
    change (onClientEvent generateAuthCode (sm, Pending) now
              (steamGuard None wrong))
      with (onSteamGuard generateAuthCode sm now wrong).
    fold (challenges times). rewrite E1, E. eexists. split; [done|].
    unfold codesSubmitted in *. by rewrite omap_app, Hc1, Hc.
Qed.

(** C9, as amended. With a truthy shared secret: the code in the options
    of [client.logOn] is the one derived at the time [login] is called;
    every 'steamGuard' challenge raised while the login is pending is
    answered with one code derived at the time of that challenge, and the
    login stays pending, however many challenges there are; over a whole
    attempt the codes handed to Steam are the codes of the times they were
    asked for. Without one: a challenge rejects the login, no code is
    handed over, and the settled login ignores what follows. *)
Theorem second_factor_code_derived_at_use sm :
  match JsString.truthy (sharedSecret (cfg sm)) with
  | Some secret =>
      (∀ now, ∃ out, login generateAuthCode sm now = (Pending, out)
                     ∧ codesSubmitted out = [generateAuthCode secret now])
      ∧ (∀ now domain lastCodeWrong,
           ∃ out, onClientEvent generateAuthCode (sm, Pending) now
                    (steamGuard domain lastCodeWrong) = (sm, Pending, out)
                  ∧ codesSubmitted out = [generateAuthCode secret now])
      ∧ (∀ start times,
           ∃ out, attempt generateAuthCode sm start (challenges times)
                  = (sm, Pending, out)
                  ∧ codesSubmitted out
                    = generateAuthCode secret start
                      :: ((λ '(now, _), generateAuthCode secret now) <$> times))
  | None =>
      ∀ now domain lastCodeWrong,
        ∃ out, onClientEvent generateAuthCode (sm, Pending) now
                 (steamGuard domain lastCodeWrong)
               = (sm, Rejected SteamGuardCodeRequired, out)
               ∧ codesSubmitted out = []
               ∧ ∀ later ev,
                   onClientEvent generateAuthCode
                     (sm, Rejected SteamGuardCodeRequired) later ev
                   = (sm, Rejected SteamGuardCodeRequired, [])
  end.
Proof.
  destruct (JsString.truthy (sharedSecret (cfg sm))) as [secret|] eqn:H.
  - assert (∀ now, ∃ out, login generateAuthCode sm now = (Pending, out)
              ∧ codesSubmitted out = [generateAuthCode secret now]) as Hlogin.
    { intros now. unfold login. rewrite H. eexists. split; done. }
    split; [done|]. split.
    + intros now domain wrong. unfold onClientEvent. cbn [snd fst].
      by apply onSteamGuard_with_seed.
    + intros start times. unfold attempt.
      destruct (Hlogin start) as (out & -> & Hc).
      destruct (deliver_challenges sm secret times H) as (out' & -> & Hc').
      eexists. split; [done|].
      unfold codesSubmitted in *. by rewrite omap_app, Hc, Hc'.
  - intros now domain wrong. unfold onClientEvent. cbn [snd fst].
    unfold onSteamGuard. rewrite H.
    eexists. split; [done|]. split; [by destruct wrong | done].
Qed.

End SecondFactor.

(** With the sample derivation, a challenge 45 seconds after [login] is
    answered with the code of its own window, not the first one again. *)
Lemma second_factor_code_derived_at_use_witness :
  ∃ out, SteamManager.attempt Sample.totp Sample.steam 0
           [(45, SteamManager.steamGuard None true)]
         = (Sample.steam, SteamManager.Pending, out)
         ∧ SteamManager.codesSubmitted out
           = [js "seed" ++ [0%N]; js "seed" ++ [1%N]].
Proof.
  exact (proj2 (proj2 (second_factor_code_derived_at_use Sample.totp Sample.steam))
           0 [(45, true)]).
Defined.

(** Against C9 as stated ('retried once'): with a seed, three challenges
    in a row, each reporting the last code wrong, are each answered with
    the code of their own time, and the login is still pending after the
    third. Nothing makes a second challenge fatal. *)
Lemma challenge_answered_more_than_once :
  ∃ out, SteamManager.attempt Sample.totp Sample.steam 0
           [(45, SteamManager.steamGuard None true);
            (90, SteamManager.steamGuard None true);
            (135, SteamManager.steamGuard None true)]
         = (Sample.steam, SteamManager.Pending, out)
         ∧ SteamManager.codesSubmitted out
           = [js "seed" ++ [0%N]; js "seed" ++ [1%N];
              js "seed" ++ [3%N]; js "seed" ++ [4%N]].
Proof. eexists. split; reflexivity. Qed.

(** * Further properties of the code *)

(** ** The link table *)

Section LinkTable.

Import DatabaseManager.

Lemma find_app_first {A} (f : A → bool) (l k : list A) :
  List.find f (l ++ k)
  = match List.find f l with Some x => Some x | None => List.find f k end.
Proof.
  induction l as [|a l IH]; simpl; [done|]. by destruct (f a).
Qed.

Lemma find_none_all {A} (f : A → bool) (l : list A) :
  (∀ x, x ∈ l → f x = false) → List.find f l = None.
Proof.
  induction l as [|a l IH]; simpl; [done|]. intros H.
  rewrite (H a) by apply list_elem_of_here.
  apply IH. intros x Hx. apply H. by apply list_elem_of_further.
Qed.

Lemma find_key_filter_ne {A K} `{EqDecision K} (f : A → K) (l : list A) k k' :
  k' ≠ k →
  List.find (λ r, bool_decide (f r = k')) (filter (λ r, f r ≠ k) l)
  = List.find (λ r, bool_decide (f r = k')) l.
Proof.
  intros Hne. induction l as [|a l IH]; simpl; [done|]. rewrite filter_cons.
  destruct (decide (f a ≠ k)) as [Ha|Ha]; simpl.
  - by rewrite IH.
  - apply dec_stable in Ha. rewrite IH.
    rewrite bool_decide_eq_false_2; [done | congruence].
Qed.

Lemma find_key_None {A K} `{EqDecision K} (f : A → K) (l : list A) k :
  List.find (λ r, bool_decide (f r = k)) l = None ↔ ∀ r, r ∈ l → f r ≠ k.
Proof.
  split.
  - intros H r Hr E. apply list_elem_of_In in Hr.
    pose proof (List.find_none _ _ H r Hr) as Hf. simpl in Hf.
    by rewrite bool_decide_eq_true_2 in Hf.
  - intros H. apply find_none_all. intros r Hr.
    apply bool_decide_eq_false_2. by apply H.
Qed.

Lemma filter_keeps_all {A} (P : A → Prop) `{∀ x, Decision (P x)} (l : list A) :
  (∀ x, x ∈ l → P x) → filter P l = l.
Proof.
  induction l as [|a l IH]; intros H'; [done|].
  rewrite filter_cons, decide_True by apply H', list_elem_of_here.
  f_equal. apply IH. intros x Hx. by apply H', list_elem_of_further.
Qed.

Lemma filter_agree {A} (P Q : A → Prop) `{∀ x, Decision (P x)}
    `{∀ x, Decision (Q x)} (l : list A) :
  (∀ x, x ∈ l → P x ↔ Q x) → filter P l = filter Q l.
Proof.
  induction l as [|a l IH]; intros Hiff; [done|].
  pose proof (Hiff a (list_elem_of_here _ _)) as Ha.
  rewrite !filter_cons.
  rewrite IH by (intros x Hx; by apply Hiff, list_elem_of_further).
  destruct (decide (P a)), (decide (Q a)); tauto || done.
Qed.

Lemma with_user_mappings_same db :
  with_user_mappings db (user_mappings db) = db.
Proof. by destruct db. Qed.

Lemma linkUser_lookup_by_discord db discordId steamId now :
  getUserMapping (linkUser db discordId steamId now) discordId
  = Some (linkRow discordId steamId now).
Proof.
  unfold getUserMapping, linkUser. simpl. rewrite find_app_first.
  rewrite find_none_all; simpl; [by rewrite bool_decide_eq_true_2|].
  intros x [[? ?] _]%list_elem_of_filter. by apply bool_decide_eq_false_2.
Qed.

Lemma linkUser_lookup_by_steam db discordId steamId now :
  getMappingBySteamId (linkUser db discordId steamId now) steamId
  = Some (linkRow discordId steamId now).
Proof.
  unfold getMappingBySteamId, linkUser. simpl. rewrite find_app_first.
  rewrite find_none_all; simpl; [by rewrite bool_decide_eq_true_2|].
  intros x [[? ?] _]%list_elem_of_filter. by apply bool_decide_eq_false_2.
Qed.

(** X1. Whatever the table held, after [linkUser] both lookups give the
    new row: the Discord user resolves to the Steam account and the Steam
    account to the Discord user, with [linked_at] restarted. *)
Theorem linkUser_then_lookup db discordId steamId now :
  let db' := linkUser db discordId steamId now in
  getUserMapping db' discordId = Some (linkRow discordId steamId now)
  ∧ getMappingBySteamId db' steamId = Some (linkRow discordId steamId now).
Proof.
  intros db'. subst db'. split.
  - apply linkUser_lookup_by_discord.
  - apply linkUser_lookup_by_steam.
Qed.

(** X2. [linkUser] alone does not refuse a taken account: when another
    Discord user holds the Steam account, that user's link is deleted and
    the account resolves to the new user. *)
Theorem linkUser_displaces_holder db discordId steamId now holder :
  bijective db →
  holder ∈ user_mappings db →
  UserMapping.steam_id holder = steamId →
  UserMapping.discord_id holder ≠ discordId →
  let db' := linkUser db discordId steamId now in
  getUserMapping db' (UserMapping.discord_id holder) = None
  ∧ (UserMapping.discord_id <$> getMappingBySteamId db' steamId)
    = Some discordId.
Proof.
  intros [Hd Hs] Hin Hsteam Hne db'. split.
  - apply find_key_None. intros r Hr E. subst db'. unfold linkUser in Hr.
    simpl in Hr. apply elem_of_app in Hr as [Hr | Hr].
    + apply list_elem_of_filter in Hr as [[_ Hrs] Hr].
      assert (r = holder) as ->; [|done].
      pose proof (find_key_unique UserMapping.discord_id _ r Hd Hr) as F1.
      pose proof (find_key_unique UserMapping.discord_id _ holder Hd Hin) as F2.
      rewrite E in F1. congruence.
    + apply list_elem_of_singleton in Hr as ->. simpl in E. done.
  - subst db'.
    unfold getMappingBySteamId, linkUser. simpl. rewrite find_app_first.
    rewrite find_none_all; simpl; [by rewrite bool_decide_eq_true_2|].
    intros x [[? ?] _]%list_elem_of_filter. by apply bool_decide_eq_false_2.
Qed.

(** X3. [unlinkUser] removes the user's link and no other: the user no
    longer resolves, every other user resolves as before, both keys stay
    unique, and for a user without a link the table is left as it was. *)
Theorem unlinkUser_removes_only_that_link db discordId :
  let db' := unlinkUser db discordId in
  getUserMapping db' discordId = None
  ∧ (∀ other, other ≠ discordId →
              getUserMapping db' other = getUserMapping db other)
  ∧ (bijective db → bijective db')
  ∧ (getUserMapping db discordId = None → db' = db).
Proof.
  intros db'. subst db'. unfold unlinkUser, getUserMapping. simpl.
  split; [|split; [|split]].
  - apply find_key_None. by intros r [? _]%list_elem_of_filter.
  - intros other Hne. by apply find_key_filter_ne.
  - intros [Hd Hs]. split; simpl; by apply NoDup_fmap_filter.
  - intros H. rewrite find_key_None in H.
    rewrite filter_keeps_all by done. apply with_user_mappings_same.
Qed.

(** X4. Linking a user and an account that were both free and unlinking
    the user again gives back the table as it was. *)
Theorem link_then_unlink_restores db discordId steamId now :
  getUserMapping db discordId = None →
  getMappingBySteamId db steamId = None →
  unlinkUser (linkUser db discordId steamId now) discordId = db.
Proof.
  unfold getUserMapping, getMappingBySteamId.
  rewrite !find_key_None. intros Hd Hs.
  unfold unlinkUser, linkUser. simpl.
  rewrite filter_app, filter_cons, decide_False by (simpl; tauto).
  rewrite filter_nil, app_nil_r.
  rewrite (filter_keeps_all (λ r, _ ∧ _)) by (intros r Hr; split; auto).
  rewrite filter_keeps_all by done.
  destruct db; done.
Qed.

End LinkTable.

(** ** Destinations and rate-limit records *)

Section Tables.

Import DatabaseManager.

Lemma destinations_after_setUpdateChannel db guildId channelId now :
  destinations (setUpdateChannel db guildId channelId now)
  = (ServerConfig.update_channel_id
     <$> filter (λ r, ServerConfig.guild_id r ≠ guildId) (server_configs db))
    ++ [channelId].
Proof.
  unfold destinations, getAllServerConfigs, setUpdateChannel. simpl.
  by rewrite fmap_app.
Qed.

(** X5. After [setUpdateChannel] the guild resolves to the new channel
    and every other guild as before; a second call for the same guild
    replaces the first (last write wins); guild ids stay unique, so a guild
    never has two destinations; and the guild's destination moves to the
    end of the delivery order. *)
Theorem setUpdateChannel_last_write_wins db guildId channelId now :
  let db' := setUpdateChannel db guildId channelId now in
  getUpdateChannel db' guildId = Some (configRow guildId channelId now)
  ∧ (∀ other, other ≠ guildId →
              getUpdateChannel db' other = getUpdateChannel db other)
  ∧ (∀ channelId2 now2,
       setUpdateChannel db' guildId channelId2 now2
       = setUpdateChannel db guildId channelId2 now2)
  ∧ (NoDup (ServerConfig.guild_id <$> server_configs db) →
     NoDup (ServerConfig.guild_id <$> server_configs db'))
  ∧ destinations db'
    = (ServerConfig.update_channel_id
       <$> filter (λ r, ServerConfig.guild_id r ≠ guildId) (server_configs db))
      ++ [channelId].
Proof.
  intros db'. subst db'. unfold getUpdateChannel, setUpdateChannel. simpl.
  split; [|split; [|split; [|split]]].
  - rewrite find_app_first, find_none_all; simpl;
      [by rewrite bool_decide_eq_true_2|].
    intros x [? _]%list_elem_of_filter. by apply bool_decide_eq_false_2.
  - intros other Hne. rewrite find_app_first, find_key_filter_ne by done.
    destruct (List.find _ (server_configs db)); [done|]. simpl.
    by rewrite bool_decide_eq_false_2.
  - intros channelId2 now2. unfold with_server_configs. simpl. f_equal.
    rewrite filter_app, filter_cons, decide_False by (simpl; tauto).
    rewrite filter_nil, app_nil_r.
    rewrite filter_keeps_all; [done|]. by intros x [? _]%list_elem_of_filter.
  - intros Hnd. rewrite fmap_app. apply NoDup_app.
    split; [by apply NoDup_fmap_filter|]. split; [|apply NoDup_singleton].
    intros x (y & -> & [Hy _]%list_elem_of_filter)%list_elem_of_fmap.
    simpl. by intros E%list_elem_of_singleton.
  - unfold destinations, getAllServerConfigs. simpl. by rewrite fmap_app.
Qed.

(** X6. [recordUpdate] starts the cooldown of its account and of no
    other: right after it, [canUpdate] for the account holds exactly when
    the cooldown has passed since the time recorded, whatever the record
    was before, and for any other account it answers as before. *)
Theorem recordUpdate_starts_cooldown db steamId now cooldownSeconds later :
  canUpdate (recordUpdate db steamId now) steamId cooldownSeconds later
  = (cooldownSeconds <=? later - now)
  ∧ ∀ other, other ≠ steamId →
             canUpdate (recordUpdate db steamId now) other cooldownSeconds later
             = canUpdate db other cooldownSeconds later.
Proof.
  unfold canUpdate, recordUpdate. simpl. split.
  - by rewrite lookup_insert_eq.
  - intros other Hne. by rewrite lookup_insert_ne.
Qed.

Lemma last_cons_default {A} (l : list A) a d :
  List.last (a :: l) d = List.last l a.
Proof.
  revert a d. induction l as [|x l IH]; intros a d; [done|].
  change (List.last (a :: x :: l) d) with (List.last (x :: l) d).
  by rewrite !IH.
Qed.

Lemma recordAll_cons db steamId now times :
  recordAll db steamId (now :: times)
  = recordAll (recordUpdate db steamId now) steamId times.
Proof. reflexivity. Qed.

(** X7. The notification count counts: after [recordUpdate] has run for
    an account at each of a run of times, the record holds the last of the
    times and the count it had before (0 without a record) plus the number
    of runs. *)
Theorem recordUpdate_counts db steamId now times :
  rate_limits (recordAll db steamId (now :: times)) !! steamId
  = Some {| RateLimit.last_update := List.last times now;
            RateLimit.update_count :=
              default 0 (countOf db steamId)
              + Z.of_nat (S (length times)) |}.
Proof.
  revert db now. induction times as [|t times IH]; intros db now.
  - unfold recordAll, countOf. simpl. rewrite lookup_insert_eq. done.
  - rewrite recordAll_cons, IH. f_equal. f_equal.
    + by rewrite last_cons_default.
    + unfold countOf, recordUpdate. simpl. rewrite lookup_insert_eq. simpl.
      lia.
Qed.

End Tables.

(** ** The pipeline over time *)

Section Sequences.

Import DatabaseManager SteamDiscordBot.

(** What one run of the handler can do to the database. *)
Lemma handler_db_cases bot clk data w :
  let w' := exec (handlePresenceChange bot clk data) w in
  w_db w' = w_db w
  ∨ (canUpdate (w_db w) (steamId data) 300 (at_canUpdate clk) = false
     ∧ w_db w' = updateSteamCache (w_db w) (steamId data) data
                   (at_updateSteamCache clk))
  ∨ (canUpdate (w_db w) (steamId data) 300 (at_canUpdate clk) = true
     ∧ w_db w' = committed (w_db w) clk data).
Proof.
  intros w'. subst w'.
  destruct (getMappingBySteamId (w_db w) (steamId data)) as [m|] eqn:Hm.
  2: { left. unfold exec. by rewrite handle_not_linked. }
  assert (linked (w_db w) (steamId data)) as Hl by (by exists m).
  destruct (noMeaningfulChange (getSteamCache (w_db w) (steamId data)) data)
    eqn:Hc.
  { left. unfold exec. by rewrite handle_no_change. }
  destruct (canUpdate (w_db w) (steamId data) 300 (at_canUpdate clk)) eqn:Hr.
  - right. right. split; [done|]. by apply handle_eligible_db.
  - right. left. split; [done|]. unfold exec. by rewrite handle_throttled.
Qed.

(** X8. A run of the handler, whatever the event and whatever happens on
    the Discord side, leaves the link table and the destinations as they
    were, and leaves the cache entry and the rate-limit record of every
    account other than the event's own untouched. *)
Theorem handler_touches_only_its_account bot clk data w :
  let w' := exec (handlePresenceChange bot clk data) w in
  user_mappings (w_db w') = user_mappings (w_db w)
  ∧ server_configs (w_db w') = server_configs (w_db w)
  ∧ ∀ other, other ≠ steamId data →
             getSteamCache (w_db w') other = getSteamCache (w_db w) other
             ∧ rate_limits (w_db w') !! other = rate_limits (w_db w) !! other.
Proof.
  intros w'. subst w'.
  destruct (handler_db_cases bot clk data w) as [-> | [[_ ->] | [_ ->]]];
    (split; [done|]); (split; [done|]); intros other Hne;
    unfold getSteamCache, committed, recordUpdate, updateSteamCache; simpl;
    rewrite ?lookup_insert_ne by done; done.
Qed.

(** What one run of the handler can do to the rate-limit record of an
    account: nothing, or, for an eligible event of that account, rewrite it
    with the time of the run and the count raised by one. *)
Lemma handler_charge_cases bot now data w account :
  let w' := exec (handlePresenceChange bot (at_time now) data) w in
  rate_limits (w_db w') !! account = rate_limits (w_db w) !! account
  ∨ (canUpdate (w_db w) account 300 now = true
     ∧ rate_limits (w_db w') !! account
       = Some {| RateLimit.last_update := now;
                 RateLimit.update_count :=
                   default 0 (countOf (w_db w) account) + 1 |}).
Proof.
  intros w'. subst w'.
  destruct (handler_db_cases bot (at_time now) data w)
    as [-> | [[_ ->] | [Hcan ->]]]; [by left | by left |].
  destruct (decide (account = steamId data)) as [->|Hne].
  - right. split; [done|]. by rewrite rate_after_commit.
  - left. unfold committed, recordUpdate. simpl. by rewrite lookup_insert_ne.
Qed.

Lemma charged_differs db account :
  Some (default 0 (countOf db account) + 1) ≠ countOf db account.
Proof. destruct (countOf db account); simpl; [intros [=]; lia | done]. Qed.

(** X9. Over any run of events, the times at which an account is charged
    a notification are at least 300 seconds apart, the first of them at
    least 300 seconds after the time of the record the account started
    with. No order of the times is assumed. *)
Theorem notifications_spaced_by_cooldown bot account events w :
  spaced 300
    (RateLimit.last_update <$> rate_limits (w_db w) !! account)
    (chargedAt bot account events w).
Proof.
  revert w. induction events as [|[now data] events IH]; intros w; [done|].
  cbn [chargedAt].
  destruct (handler_charge_cases bot now data w account) as [E | [Hcan E]].
  - rewrite bool_decide_eq_true_2 by (unfold countOf; by rewrite E).
    simpl. rewrite <- E. apply IH.
  - rewrite bool_decide_eq_false_2.
    2: { unfold countOf at 1. rewrite E. simpl. apply charged_differs. }
    simpl. split.
    + unfold canUpdate in Hcan.
      destruct (rate_limits (w_db w) !! account) as [r|]; simpl; [lia|done].
    + specialize (IH (exec (handlePresenceChange bot (at_time now) data) w)).
      by rewrite E in IH.
Qed.

(** X10. Over any run of events, the notification count of an account
    grows by exactly the number of times it was charged: it is the count it
    started with (0 without a record) plus that number, and an account that
    was never charged keeps its record, or stays without one. *)
Theorem notification_count_counts_charges bot account events w :
  countOf (w_db (handleAll bot events w)) account
  = match chargedAt bot account events w with
    | [] => countOf (w_db w) account
    | charged =>
        Some (default 0 (countOf (w_db w) account)
              + Z.of_nat (length charged))
    end.
Proof.
  revert w. induction events as [|[now data] events IH]; intros w; [done|].
  cbn [chargedAt handleAll]. rewrite IH.
  destruct (handler_charge_cases bot now data w account) as [E | [Hcan E]].
  - rewrite bool_decide_eq_true_2 by (unfold countOf; by rewrite E).
    simpl. unfold countOf. by rewrite E.
  - rewrite bool_decide_eq_false_2.
    2: { unfold countOf at 1. rewrite E. simpl. apply charged_differs. }
    simpl.
    assert (countOf (w_db (exec (handlePresenceChange bot (at_time now) data) w))
              account
            = Some (default 0 (countOf (w_db w) account) + 1)) as ->.
    { unfold countOf at 1. by rewrite E. }
    destruct (chargedAt bot account events _); simpl; f_equal; lia.
Qed.

End Sequences.

(** ** The commands *)

Section Commands.

Import DatabaseManager SteamDiscordBot SteamCommand.

Lemma handleUnlink_run discordId w :
  handleUnlink discordId w
  = match getUserMapping (w_db w) discordId with
    | None => (inr NoLinkedAccount, w)
    | Some row =>
        (inr (Unlinked (UserMapping.steam_id row)),
         {| w_db := unlinkUser (w_db w) discordId;
            w_isShuttingDown := w_isShuttingDown w;
            w_trace := w_trace w ++ [StmtRun tbl_user_mappings discordId;
                                     Log info "Unlinked Discord user"] |})
    end.
Proof.
  unfold handleUnlink, bind at 1, query at 1.
  destruct (getUserMapping (w_db w) discordId); [|done].
  trace_norm. unfold run. simpl. by rewrite <- ?app_assoc.
Qed.

(** X11. [/steam unlink] for a user without a link answers that there is
    none and changes nothing. For a linked user it answers with the account
    that was linked, and from then on every presence event of that account
    is ignored by the pipeline; the account's cache entry and rate-limit
    record are not deleted. *)
Theorem unlink_stops_the_pipeline discordId w :
  bijective (w_db w) →
  match getUserMapping (w_db w) discordId with
  | None => handleUnlink discordId w = (inr NoLinkedAccount, w)
  | Some row =>
      let w1 := exec (handleUnlink discordId) w in
      fst (handleUnlink discordId w) = inr (Unlinked (UserMapping.steam_id row))
      ∧ (∀ bot clk data,
           steamId data = UserMapping.steam_id row →
           handlePresenceChange bot clk data w1 = (inr (), w1))
      ∧ steam_cache (w_db w1) = steam_cache (w_db w)
      ∧ rate_limits (w_db w1) = rate_limits (w_db w)
  end.
Proof.
  intros [Hd Hs].
  destruct (getUserMapping (w_db w) discordId) as [row|] eqn:Hrow.
  2: { by rewrite handleUnlink_run, Hrow. }
  intros w1. subst w1. unfold exec. rewrite handleUnlink_run, Hrow. simpl.
  split; [done|]. split; [|done].
  intros bot clk data Hdata. apply handle_not_linked. simpl.
  apply find_key_None. intros r [Hr Hin]%list_elem_of_filter E.
  apply find_key_Some in Hrow as [Hrow_in Hrow_d].
  assert (r = row) as ->; [|done].
  pose proof (find_key_unique UserMapping.steam_id _ r Hs Hin) as F1.
  pose proof (find_key_unique UserMapping.steam_id _ row Hs Hrow_in) as F2.
  rewrite E, Hdata in F1. congruence.
Qed.

(** X12. A link request that does not name a friend of the bot writes
    nothing: with an identifier that does not parse it is answered as
    invalid, with one that parses to an account outside the friends cache
    as not friends, and the world is as before in both cases. *)
Theorem link_needs_a_friend sm now discordId identifier w :
  match parseSteamIdentifier identifier with
  | inl _ =>
      handleLink sm now discordId identifier w = (inr InvalidIdentifier, w)
  | inr steamId64 =>
      steamId64 ∉ SteamManager.friendsCache sm →
      handleLink sm now discordId identifier w
      = (inr (NotFriends steamId64), w)
  end.
Proof.
  rewrite handleLink_run.
  destruct (parseSteamIdentifier identifier) as [e|steamId64]; [done|].
  intros H. unfold SteamManager.isFriend. by rewrite bool_decide_eq_false_2.
Qed.

(** X13. A link request that parses to a friend's account, from a user
    with no link or with a link to that same account, for an account no
    other user holds, succeeds: the user and the account resolve to each
    other with [linked_at] set to the time of the request (a repeated
    request restarts it), every other user's link is kept, and the
    account's presence events are now admitted by the pipeline. *)
Theorem link_succeeds_and_admits sm now discordId identifier steamId64 w :
  bijective (w_db w) →
  parseSteamIdentifier identifier = inr steamId64 →
  steamId64 ∈ SteamManager.friendsCache sm →
  (∀ row, row ∈ user_mappings (w_db w) →
          UserMapping.discord_id row = discordId
          ∨ UserMapping.steam_id row = steamId64 →
          UserMapping.discord_id row = discordId
          ∧ UserMapping.steam_id row = steamId64) →
  let w' := exec (handleLink sm now discordId identifier) w in
  fst (handleLink sm now discordId identifier w) = inr (Linked steamId64)
  ∧ getUserMapping (w_db w') discordId = Some (linkRow discordId steamId64 now)
  ∧ getMappingBySteamId (w_db w') steamId64
    = Some (linkRow discordId steamId64 now)
  ∧ linked (w_db w') steamId64
  ∧ ∀ other, other ≠ discordId →
             getUserMapping (w_db w') other = getUserMapping (w_db w) other.
Proof.
  intros [Hd Hs] Hparse Hfriend Hfree w'. subst w'. unfold exec.
  rewrite handleLink_run, Hparse. unfold SteamManager.isFriend.
  rewrite bool_decide_eq_true_2 by done. simpl.
  assert (match getUserMapping (w_db w) discordId with
          | Some row => negb (bool_decide (UserMapping.steam_id row = steamId64))
          | None => false
          end = false) as ->.
  { destruct (getUserMapping (w_db w) discordId) as [row|] eqn:E; [|done].
    apply find_key_Some in E as [Hin Hk].
    destruct (Hfree row Hin (or_introl Hk)) as [_ ->].
    by rewrite bool_decide_eq_true_2. }
  assert (match getMappingBySteamId (w_db w) steamId64 with
          | Some row => negb (bool_decide (UserMapping.discord_id row = discordId))
          | None => false
          end = false) as ->.
  { destruct (getMappingBySteamId (w_db w) steamId64) as [row|] eqn:E; [|done].
    apply find_key_Some in E as [Hin Hk].
    destruct (Hfree row Hin (or_intror Hk)) as [-> _].
    by rewrite bool_decide_eq_true_2. }
  simpl.
  pose proof (linkUser_lookup_by_discord (w_db w) discordId steamId64 now)
    as L1.
  pose proof (linkUser_lookup_by_steam (w_db w) discordId steamId64 now)
    as L2.
  split; [done|]. split; [done|]. split; [done|].
  split; [unfold linked; by rewrite L2|].
  intros other Hne. unfold getUserMapping, linkUser. simpl.
  rewrite find_app_first. simpl.
  rewrite (bool_decide_eq_false_2 (discordId = other)) by done.
  assert (filter (λ r, UserMapping.discord_id r ≠ discordId
                       ∧ UserMapping.steam_id r ≠ steamId64)
            (user_mappings (w_db w))
          = filter (λ r, UserMapping.discord_id r ≠ discordId)
              (user_mappings (w_db w))) as ->.
  { apply filter_agree. intros r Hr. split; [tauto|].
    intros Hn. split; [done|]. intros Es.
    by destruct (Hfree r Hr (or_intror Es)). }
  rewrite find_key_filter_ne by done.
  by destruct (List.find _ (user_mappings (w_db w))).
Qed.

Lemma handleSetChannel_run i now w :
  handleSetChannel i now w
  = if i_administrator i && i_isTextBased i && i_sendMessages i
       && i_embedLinks i
    then (inr ChannelSet,
          {| w_db := setUpdateChannel (w_db w) (i_guildId i) (i_channelId i) now;
             w_isShuttingDown := w_isShuttingDown w;
             w_trace := w_trace w ++ [StmtRun tbl_server_configs (i_guildId i);
                                      Log info "Set update channel for guild"] |})
    else (inr (if negb (i_administrator i) then NeedAdministrator
               else if negb (i_isTextBased i) then NotTextChannel
               else MissingPermissions), w).
Proof.
  unfold handleSetChannel.
  destruct (i_administrator i), (i_isTextBased i), (i_sendMessages i),
    (i_embedLinks i); simpl; try done;
    trace_norm; unfold run; simpl; by rewrite <- ?app_assoc.
Qed.

(** X14. [/steam setchannel] changes the destinations only for an
    administrator choosing a text channel in which the bot may send
    messages and embed links; every other request is refused with the
    world as before. When it is accepted, the next eligible presence event
    is delivered to the chosen channel last, and to no other channel of
    that guild. *)
Theorem setchannel_gates_then_delivers i now w :
  let w' := exec (handleSetChannel i now) w in
  (w_db w' ≠ w_db w →
   i_administrator i = true ∧ i_isTextBased i = true
   ∧ i_sendMessages i = true ∧ i_embedLinks i = true)
  ∧ (fst (handleSetChannel i now w) ≠ inr ChannelSet → w' = w)
  ∧ (fst (handleSetChannel i now w) = inr ChannelSet →
     ∀ bot dm clk data,
       discordManager bot = Some dm →
       linked (w_db w') (steamId data) →
       changed (getSteamCache (w_db w') (steamId data)) data →
       canUpdate (w_db w') (steamId data) 300 (at_canUpdate clk) = true →
       fetches (w_trace (exec (handlePresenceChange bot clk data) w'))
       = fetches (w_trace w')
         ++ (ServerConfig.update_channel_id
             <$> filter (λ r, ServerConfig.guild_id r ≠ i_guildId i)
                   (server_configs (w_db w)))
         ++ [i_channelId i]).
Proof.
  intros w'. subst w'. unfold exec. rewrite handleSetChannel_run.
  destruct (i_administrator i && i_isTextBased i && i_sendMessages i
            && i_embedLinks i) eqn:E.
  - apply andb_prop in E as [E E4]. apply andb_prop in E as [E E3].
    apply andb_prop in E as [E1 E2]. cbn [fst snd].
    set (W := {| w_db := setUpdateChannel (w_db w) (i_guildId i)
                           (i_channelId i) now |}).
    split; [done|]. split; [done|]. intros _ bot dm clk data Hdm Hl Hc Hr.
    destruct (eligible_run bot clk data W dm Hdm Hl Hc Hr) as (_ & Hf & _).
    unfold exec in Hf. rewrite Hf. f_equal.
    apply (destinations_after_setUpdateChannel (w_db w)).
  - simpl. split; [done|]. split; [done|].
    by destruct (i_administrator i), (i_isTextBased i).
Qed.

End Commands.

(** ** Shutdown *)

Section ShutdownOnce.

Import SteamDiscordBot.

Lemma shutdown_sets_flag bot sig w :
  w_isShuttingDown (exec (shutdown bot sig) w) = true.
Proof.
  destruct (w_isShuttingDown w) eqn:H.
  { unfold exec. by rewrite shutdown_already. }
  unfold exec, shutdown. unfold bind at 1, getShuttingDown. rewrite H.
  destruct bot as [[sm|] [dm|]]; simpl;
    unfold SteamManager.logout, DiscordManager.destroy;
    repeat match goal with
      | |- context [SteamManager.isLoggedIn ?sm] =>
          destruct (SteamManager.isLoggedIn sm)
      | |- context [DiscordManager.destroy_resolves ?dm] =>
          destruct (DiscordManager.destroy_resolves dm)
      end; done.
Qed.

Lemma onProcessEvent_sets_flag bot sig w :
  w_isShuttingDown (exec (onProcessEvent bot sig) w) = true.
Proof.
  destruct sig; simpl; try apply shutdown_sets_flag;
    unfold exec, bind; simpl; apply shutdown_sets_flag.
Qed.

(** X15. The shutdown sequence runs at most once: after any first
    process-level event [isShuttingDown] is set, and a second event,
    whichever it is, takes no further step of the sequence. If destroying
    the Discord client fails during the first one, the process exits with
    code 1 without closing the store, and with code 0 after closing it
    otherwise. *)
Theorem shutdown_runs_once bot first second w :
  w_isShuttingDown w = false →
  let w1 := exec (onProcessEvent bot first) w in
  w_isShuttingDown w1 = true
  ∧ shutdownSteps (w_trace (exec (onProcessEvent bot second) w1))
    = shutdownSteps (w_trace w1)
  ∧ shutdownSteps (w_trace w1) = shutdownSteps (w_trace w) ++ shutdownSequence bot
  ∧ List.last (shutdownSequence bot) DbClose
    = ProcessExit
        (match discordManager bot with
         | Some dm => if DiscordManager.destroy_resolves dm then 0 else 1
         | None => 0
         end)
  ∧ existsb (λ e, match e with DbClose => true | _ => false end)
      (shutdownSequence bot)
    = match discordManager bot with
      | Some dm => DiscordManager.destroy_resolves dm
      | None => true
      end.
Proof.
  intros H w1. subst w1.
  pose proof (onProcessEvent_sets_flag bot first w) as Hflag.
  split; [done|]. split; [|split; [|split]].
  - rewrite onProcessEvent_steps. unfold exec at 1.
    by rewrite shutdown_already.
  - by rewrite onProcessEvent_steps, shutdown_run.
  - unfold shutdownSequence.
    destruct bot as [[sm|] [dm|]]; simpl;
      repeat match goal with
        | |- context [SteamManager.isLoggedIn ?sm] =>
            destruct (SteamManager.isLoggedIn sm)
        | |- context [DiscordManager.destroy_resolves ?dm] =>
            destruct (DiscordManager.destroy_resolves dm)
        end; done.
  - unfold shutdownSequence.
    destruct bot as [[sm|] [dm|]]; simpl;
      repeat match goal with
        | |- context [SteamManager.isLoggedIn ?sm] =>
            destruct (SteamManager.isLoggedIn sm)
        | |- context [DiscordManager.destroy_resolves ?dm] =>
            destruct (DiscordManager.destroy_resolves dm)
        end; done.
Qed.

End ShutdownOnce.

(** ** The Steam session *)

Section Session.

Import SteamManager.

(** X16. A 'friendRelationship' event changes the friendship of the
    account it names and of no other: Friend adds it, None removes it, and
    every other relationship (blocked, ignored, a pending request) leaves
    the cache as it was, so a friend who is then blocked stays admitted. *)
Theorem friend_relationship_updates_one_account sm steamIdStr relationship :
  let sm' := onFriendRelationship sm steamIdStr relationship in
  isFriend sm' steamIdStr
  = match relationship with
    | Friend => true
    | RelNone => false
    | _ => isFriend sm steamIdStr
    end
  ∧ (∀ other, other ≠ steamIdStr → isFriend sm' other = isFriend sm other)
  ∧ cfg sm' = cfg sm ∧ isLoggedIn sm' = isLoggedIn sm.
Proof.
  intros sm'. subst sm'. unfold isFriend, onFriendRelationship.
  destruct relationship; simpl; (split; [|split; [|done]]); try done.
  - apply bool_decide_eq_false_2. rewrite elem_of_difference, elem_of_singleton.
    tauto.
  - intros other Hne. apply bool_decide_ext.
    rewrite elem_of_difference, elem_of_singleton. tauto.
  - apply bool_decide_eq_true_2. rewrite elem_of_union, elem_of_singleton.
    tauto.
  - intros other Hne. apply bool_decide_ext.
    rewrite elem_of_union, elem_of_singleton. tauto.
Qed.

Lemma friends_fold_spec (myFriends : list (jsstring * EFriendRelationship))
    (acc : gset jsstring) x :
  x ∈ foldl (λ acc '(steamIdObj, relationship),
               match relationship with
               | Friend => acc ∪ {[ steamIdObj ]}
               | _ => acc
               end) acc myFriends
  ↔ x ∈ acc ∨ (x, Friend) ∈ myFriends.
Proof.
  revert acc. induction myFriends as [|[y rel] l IH]; intros acc; simpl.
  - split; [by left | intros [?|?%elem_of_nil]; done].
  - rewrite IH, elem_of_cons.
    assert ((x, Friend) = (y, rel) ↔ x = y ∧ rel = Friend) as ->.
    { split; [by intros [= -> <-] | by intros [-> ->]]. }
    destruct rel; rewrite ?elem_of_union, ?elem_of_singleton;
      split; intros; intuition (discriminate || eauto).
Qed.

Lemma friends_cache_membership sm myFriends x :
  x ∈ friendsCache (updateFriendsCache sm myFriends) ↔ (x, Friend) ∈ myFriends.
Proof.
  unfold updateFriendsCache. simpl. rewrite friends_fold_spec.
  split; [intros [?%not_elem_of_empty|?]; done | by right].
Qed.

(** X17. The 'friendsList' rebuild keeps nothing of the old cache: after
    it an account is a friend exactly when [client.myFriends] lists it with
    the relationship Friend. *)
Theorem friends_cache_rebuilt sm myFriends steamId :
  isFriend (updateFriendsCache sm myFriends) steamId = true
  ↔ (steamId, Friend) ∈ myFriends.
Proof.
  unfold isFriend, updateFriendsCache. simpl.
  rewrite bool_decide_eq_true, friends_fold_spec.
  split; [intros [?%not_elem_of_empty|?]; done | by right].
Qed.


(** X19. After a 'disconnected' event the session is no longer logged
    in and nothing else about it has changed: a shutdown then skips
    [logOff] and runs the rest of its sequence, and 'user' events are
    filtered and handled as before, from the friends cache that was kept. *)
Theorem disconnect_skips_logoff_only bot sm sig w :
  SteamDiscordBot.steamManager bot = Some (onDisconnected sm) →
  w_isShuttingDown w = false →
  shutdownSteps (w_trace (exec (SteamDiscordBot.onProcessEvent bot sig) w))
  = shutdownSteps (w_trace w)
    ++ shutdownSequence
         {| SteamDiscordBot.steamManager := None;
            SteamDiscordBot.discordManager :=
              SteamDiscordBot.discordManager bot |}
  ∧ ∀ handler steamIdStr u w',
      onUser (onDisconnected sm) handler steamIdStr u w'
      = onUser sm handler steamIdStr u w'.
Proof.
  intros Hsm Hflag. split; [|done].
  rewrite onProcessEvent_steps, shutdown_run by done. f_equal.
  unfold shutdownSequence. rewrite Hsm. done.
Qed.

End Session.

(** ** Settling the login *)

Section Settle.

Import SteamManager.

Variable generateAuthCode : jsstring → Z → jsstring.

(** Once the promise has settled, [cleanup] has removed the listeners:
    nothing that follows reaches them. *)
Lemma deliver_settled sm p events :
  p ≠ Pending → deliver generateAuthCode (sm, p) events = (sm, p, []).
Proof.
  intros Hp. induction events as [|[now ev] events IH]; [done|].
  cbn [deliver]. unfold onClientEvent. cbn [fst snd].
  destruct p; [done| |]; by rewrite IH.
Qed.

(** X20. The login settles once, on the first 'loggedOn' or 'error': a
    'loggedOn' resolves it, sets [isLoggedIn], sets the persona to Online
    and plays no game; an 'error' rejects it with that result and leaves
    [isLoggedIn]; neither hands a code to Steam, the friends cache is
    untouched, and whatever the client emits afterwards has no effect. *)
Theorem login_settles_once sm start now later :
  (∃ out,
     attempt generateAuthCode sm start ((now, loggedOn) :: later)
     = (with_isLoggedIn sm true, Resolved,
        snd (login generateAuthCode sm start)
        ++ out ++ [SetPersonaOnline; GamesPlayed])
     ∧ codesSubmitted out = [])
  ∧ ∀ eresult,
      ∃ out,
        attempt generateAuthCode sm start ((now, clientError eresult) :: later)
        = (sm, Rejected (ClientError eresult),
           snd (login generateAuthCode sm start) ++ out)
        ∧ codesSubmitted out = [].
Proof.
  unfold attempt.
  destruct (login generateAuthCode sm start) as [p out0] eqn:E.
  assert (p = Pending) as ->.
  { unfold login in E. destruct (JsString.truthy _); [by injection E|].
    destruct (JsString.truthy _); by injection E. }
  split.
  - cbn [deliver]. unfold onClientEvent. cbn [fst snd]. unfold onLoggedOn.
    rewrite deliver_settled by done.
    exists [Log info "Logged into Steam as"]. by rewrite app_nil_r.
  - intros eresult. cbn [deliver]. unfold onClientEvent. cbn [fst snd].
    unfold onError. rewrite deliver_settled by done.
    eexists. split; [by rewrite app_nil_r|]. by destruct eresult.
Qed.

(** X21. With no shared secret and a manually supplied code, [login]
    puts exactly that code in the logOn options, without deriving
    anything; the code is not offered again: the first 'steamGuard'
    challenge rejects the login as if no code had been configured. *)
Theorem manual_code_is_used_once sm code start now domain lastCodeWrong later :
  JsString.truthy (sharedSecret (cfg sm)) = None →
  JsString.truthy (cfg_twoFactorCode (cfg sm)) = Some code →
  codesSubmitted (snd (login generateAuthCode sm start)) = [code]
  ∧ ∃ out,
      attempt generateAuthCode sm start
        ((now, steamGuard domain lastCodeWrong) :: later)
      = (sm, Rejected SteamGuardCodeRequired, out)
      ∧ codesSubmitted out = [code].
Proof.
  intros Hs Hc.
  assert (codesSubmitted (snd (login generateAuthCode sm start)) = [code])
    as Hlogin.
  { unfold login. by rewrite Hs, Hc. }
  split; [done|]. unfold attempt.
  destruct (login generateAuthCode sm start) as [p out0] eqn:E.
  assert (p = Pending) as ->.
  { unfold login in E. rewrite Hs, Hc in E. by injection E. }
  cbn [deliver]. unfold onClientEvent. cbn [fst snd]. unfold onSteamGuard.
  rewrite Hs, deliver_settled by done.
  eexists. split; [reflexivity|].
  unfold codesSubmitted in *. rewrite omap_app. simpl in Hlogin.
  rewrite Hlogin. by destruct lastCodeWrong.
Qed.

End Settle.

(** ** Logging and start-up *)

Section Startup.

Import DatabaseManager SteamDiscordBot.

Lemma logger_levels arg :
  Logger.this_level (Logger.new arg) = Some 1
  ∨ Logger.this_level (Logger.new arg) = Some 2
  ∨ Logger.this_level (Logger.new arg) = Some 3
  ∨ (Logger.this_level (Logger.new arg) = None
     ∧ default (js "info") arg ∈ Logger.inheritedNames).
Proof.
  unfold Logger.new, Logger.levels, Logger.ownLevel. simpl.
  repeat case_bool_decide; simpl; auto.
Qed.

(** X22. The level 'debug' cannot be selected: the constructor reads
    [levels.debug], which is 0, as a missing level and falls back to
    'info', so a logger made with 'debug' is the default logger and no
    logger ever prints a debug message. Whatever the argument, a logger
    that prints one level prints every higher one, and unless the argument
    names a property inherited from [Object.prototype] it prints errors. *)
Theorem logger_never_prints_debug arg :
  Logger.prints (Logger.new arg) debug = false
  ∧ Logger.new (Some (js "debug")) = Logger.new None
  ∧ (∀ a b, Logger.prints (Logger.new arg) a = true →
            Logger.rank a ≤ Logger.rank b →
            Logger.prints (Logger.new arg) b = true)
  ∧ (default (js "info") arg ∉ Logger.inheritedNames →
     Logger.prints (Logger.new arg) error = true).
Proof.
  unfold Logger.prints.
  destruct (logger_levels arg) as [-> | [-> | [-> | [-> Hin]]]];
    (split; [done|]); (split; [done|]); (split; [|done]);
    intros a b Ha Hab; try done; apply Z.leb_le; apply Z.leb_le in Ha; lia.
Qed.



Lemma warnEach_run notFriends w :
  warnEach notFriends w
  = (inr (), push w (replicate (length notFriends)
                       (Log warn "Discord ID -> Steam ID"))).
Proof.
  revert w. induction notFriends as [|m l IH]; intros w; simpl.
  - by rewrite push_nil.
  - unfold bind. rewrite emit_run, IH, push_push. done.
Qed.

Lemma linkWarnings_app a b : linkWarnings (a ++ b) = (linkWarnings a + linkWarnings b)%nat.
Proof. unfold linkWarnings. by rewrite List.filter_app, length_app. Qed.

Lemma linkWarnings_replicate n :
  linkWarnings (replicate n (Log warn "Discord ID -> Steam ID")) = n.
Proof. induction n; [done|]. unfold linkWarnings in *. simpl. by rewrite IHn. Qed.

(** What [handleFriendsListLoaded] logs. *)
Lemma handleFriendsListLoaded_run friendsCache w :
  handleFriendsListLoaded friendsCache w
  = (inr (),
     push w
       (Log info "Friends list loaded with" ::
        match filter (λ m, UserMapping.steam_id m ∉ friendsCache)
                (user_mappings (w_db w)) with
        | [] => []
        | stale =>
            Log warn "linked user(s) are not friends with the bot:"
            :: replicate (length stale) (Log warn "Discord ID -> Steam ID")
            ++ [Log warn "These users will not receive presence updates until they add the bot as a friend."]
        end)).
Proof.
  unfold handleFriendsListLoaded.
  unfold bind at 1. rewrite emit_run. unfold bind at 1, query at 1.
  cbn [w_db push]. unfold getAllMappings.
  destruct (filter _ (user_mappings (w_db w))) as [|m l] eqn:E; [done|].
  cbn [length Nat.ltb Nat.leb]. unfold bind at 1. rewrite emit_run.
  unfold bind at 1. rewrite warnEach_run, emit_run, !push_push. done.
Qed.

Lemma linkWarnings_friends_list stale :
  linkWarnings
    (Log info "Friends list loaded with" ::
     match stale with
     | [] => []
     | r :: l =>
         Log warn "linked user(s) are not friends with the bot:"
         :: replicate (length (r :: l)) (Log warn "Discord ID -> Steam ID")
         ++ [Log warn "These users will not receive presence updates until they add the bot as a friend."]
     end)
  = length (A:=UserMapping.row) stale.
Proof.
  destruct stale as [|m l]; [done|].
  change (Log info "Friends list loaded with" :: ?x)
    with ([Log info "Friends list loaded with"] ++ x).
  change (Log warn "linked user(s) are not friends with the bot:" :: ?x)
    with ([Log warn "linked user(s) are not friends with the bot:"] ++ x).
  rewrite !linkWarnings_app, linkWarnings_replicate. done.
Qed.

(** X24. When the friends list has loaded, the bot warns once for every
    linked account that is not in the friends cache, the accounts whose
    'user' events the listener drops, and changes no stored state; when
    every linked account is a friend it logs the one info line only. *)
Theorem friends_list_warns_per_stale_link friendsCache w :
  let stale := filter (λ m, UserMapping.steam_id m ∉ friendsCache)
                 (user_mappings (w_db w)) in
  let w' := exec (handleFriendsListLoaded friendsCache) w in
  w_db w' = w_db w
  ∧ linkWarnings (w_trace w') = (linkWarnings (w_trace w) + length stale)%nat
  ∧ (stale = [] →
     w_trace w' = w_trace w ++ [Log info "Friends list loaded with"])
  ∧ ∀ m bot sm clk u,
      m ∈ stale → SteamManager.friendsCache sm = friendsCache →
      onSteamUser bot sm clk (UserMapping.steam_id m) u w' = (inr (), w').
Proof.
  intros stale w'. subst w'. unfold exec.
  rewrite handleFriendsListLoaded_run. fold stale. cbn [snd].
  split; [done|]. split; [|split].
  - cbn [w_trace push]. rewrite linkWarnings_app. f_equal.
    apply linkWarnings_friends_list.
  - by intros ->.
  - intros m bot sm clk u [Hm _]%list_elem_of_filter Hsm.
    unfold onSteamUser, SteamManager.onUser.
    rewrite bool_decide_eq_false_2; [done | by rewrite Hsm].
Qed.

(** X25. A 'friendsList' event with [handleFriendsListLoaded] registered:
    the manager returned has the cache rebuilt from [client.myFriends],
    the database is as it was, and the number of per-link warnings is the
    number of rows of the link table whose account is not in the rebuilt
    cache, that is, whose account [client.myFriends] does not list as a
    Friend, whatever the cache held before. *)
Theorem friends_list_event_checks_new_cache sm myFriends w :
  let sm' := SteamManager.updateFriendsCache sm myFriends in
  let run := SteamManager.onFriendsList sm myFriends
               (Some handleFriendsListLoaded) in
  fst (run w) = inr sm'
  ∧ w_db (exec run w) = w_db w
  ∧ linkWarnings (w_trace (exec run w))
    = (linkWarnings (w_trace w)
       + length (filter (λ m, UserMapping.steam_id m
                              ∉ SteamManager.friendsCache sm')
                   (user_mappings (w_db w))))%nat
  ∧ ∀ steamId, steamId ∈ SteamManager.friendsCache sm'
               ↔ (steamId, SteamManager.Friend) ∈ myFriends.
Proof.
  intros sm' run.
  assert (E : ∃ t, run w
    = (inr sm',
       push w ([Log info "Friends list received"; Log info "Cached friends"]
               ++ t))
    ∧ t = Log info "Friends list loaded with" ::
          match filter (λ m, UserMapping.steam_id m
                             ∉ SteamManager.friendsCache sm')
                  (user_mappings (w_db w)) with
          | [] => []
          | r :: l =>
              Log warn "linked user(s) are not friends with the bot:"
              :: replicate (length (r :: l)) (Log warn "Discord ID -> Steam ID")
              ++ [Log warn "These users will not receive presence updates until they add the bot as a friend."]
          end).
  { eexists. split; [|reflexivity].
    subst run sm'. unfold SteamManager.onFriendsList.
    unfold bind at 1. rewrite emit_run.
    unfold bind at 1. rewrite emit_run, push_push.
    unfold bind at 1. rewrite handleFriendsListLoaded_run, push_push.
    unfold ret. cbn [w_db push]. rewrite <- app_assoc. reflexivity. }
  destruct E as (t & E & Ht). unfold exec. rewrite E.
  cbn [fst snd w_db w_trace push].
  split; [done|]. split; [done|]. subst t. split.
  - rewrite linkWarnings_app. f_equal.
    change ([Log info "Friends list received"; Log info "Cached friends"]
            ++ ?x)
      with ([Log info "Friends list received"] ++
            [Log info "Cached friends"] ++ x).
    rewrite !linkWarnings_app, linkWarnings_friends_list. reflexivity.
  - intros steamId. apply friends_cache_membership.
Qed.

End Startup.

(** ** Deliveries and their text *)

Section Rendering.

Import DiscordManager.

Lemma stateNames_known state name :
  stateNames state = Some name → name ≠ js "Unknown" ∧ name ≠ [].
Proof.
  unfold stateNames. intros H.
  repeat match type of H with
    | context [match ?x with _ => _ end] => destruct x; try discriminate H
    end; injection H as <-; split; intros E; vm_compute in E; discriminate E.
Qed.

Lemma failuresLogged_app a b :
  failuresLogged (a ++ b) = (failuresLogged a + failuresLogged b)%nat.
Proof. unfold failuresLogged. by rewrite List.filter_app, length_app. Qed.

(** A delivery logs one warning or error exactly when it reports failure. *)
Lemma deliveryTrace_failuresLogged dm c data prev :
  failuresLogged (deliveryTrace dm c data prev)
  = if deliveryOk dm data prev c then 0%nat else 1%nat.
Proof.
  unfold deliveryTrace, deliveryOk.
  destruct (channels_fetch dm c) as [| |[|]]; try done.
  destruct (embedBuilds dm data prev); [|done].
  by destruct (send_resolves dm c).
Qed.

(** The deliveries that report success are the sends that resolve. *)
Lemma successes_are_resolved_sends dm data prev chans :
  List.filter (deliveryOk dm data prev) chans
  = List.filter (send_resolves dm) (notified dm data prev chans).
Proof.
  unfold notified, reachable.
  destruct (embedBuilds dm data prev) eqn:E;
    (induction chans as [|c chans IH]; [done|]);
    cbn [List.filter]; rewrite IH; unfold deliveryOk; rewrite E;
    by destruct (channels_fetch dm c) as [| |[|]].
Qed.

(** X26. Once the Discord manager exists the delivery loop never throws
    and writes nothing: it fetches the channel of every destination, in
    order, whatever happened to the earlier ones; it calls [channel.send]
    only on a channel that was found and is text-based, and only when the
    embed was built; it counts exactly the deliveries whose send resolved;
    and every other destination leaves exactly one warning or error in the
    log. *)
Theorem delivery_reports_instead_of_throwing bot dm serverConfigs data
    previousState sentCount w :
  SteamDiscordBot.discordManager bot = Some dm →
  let chans := ServerConfig.update_channel_id <$> serverConfigs in
  ∃ succeeded tr,
    SteamDiscordBot.fanout bot serverConfigs data previousState sentCount w
    = (inr (sentCount + succeeded)%nat, push w tr)
    ∧ fetches tr = chans
    ∧ writes tr = []
    ∧ sends tr
      = (λ c, (c, data, previousState)) <$> notified dm data previousState chans
    ∧ succeeded
      = length (List.filter (send_resolves dm)
                  (notified dm data previousState chans))
    ∧ (failuresLogged tr + succeeded = length serverConfigs)%nat.
Proof.
  intros Hdm chans. subst chans.
  eexists _, (fanoutTrace dm serverConfigs data previousState).
  split; [by apply fanout_run|].
  split; [apply fanoutTrace_fetches|].
  split; [apply fanoutTrace_writes|].
  split; [apply fanoutTrace_sends|].
  split; [by rewrite successes_are_resolved_sends|].
  induction serverConfigs as [|c rest IH]; [done|].
  rewrite fanoutTrace_cons, failuresLogged_app, deliveryTrace_failuresLogged.
  cbn [fmap list_fmap List.filter length].
  destruct (deliveryOk dm data previousState (ServerConfig.update_channel_id c));
    cbn [length]; lia.
Qed.

(** X27. The text of a notification. Without a previous row the
    description is the status line and, when a game is running, the
    playing line. With the cache row the pipeline passes, the row's
    columns are not the properties the function reads, so the previous
    state always reads as Unknown: a known current state is followed by
    '(was Unknown)', and no 'Previously' or 'Stopped playing' line is ever
    added. An unknown state number is shown as Unknown, in black. *)
Theorem notification_text data row :
  let name := default (js "Unknown") (stateNames (personaState data)) in
  let playing :=
    match JsString.truthy (gameName data) with
    | Some game => [10%N] ++ js "**Playing:** " ++ game
    | None => []
    end in
  description (createPresenceEmbed data None)
  = js "**Status:** " ++ name ++ playing
  ∧ description (createPresenceEmbed data (Some (viewOfRow row)))
    = js "**Status:** " ++ name
      ++ match stateNames (personaState data) with
         | Some _ => js " (was Unknown)"
         | None => []
         end
      ++ playing
  ∧ (stateNames (personaState data) = None →
     color (createPresenceEmbed data (Some (viewOfRow row))) = 0).
Proof.
  intros name playing. subst name playing.
  unfold createPresenceEmbed, viewOfRow. cbn [description color
    view_personaState view_gameName].
  split; [|split].
  - cbn [JsString.truthy]. destruct (JsString.truthy (gameName data));
      by rewrite <- ?app_assoc, ?app_nil_r.
  - change (JsString.truthy (Some (default (js "Unknown") None)))
      with (Some (js "Unknown")).
    cbn iota beta.
    destruct (stateNames (personaState data)) as [name|] eqn:E.
    + apply stateNames_known in E as [Hne _]. cbn [default].
      rewrite bool_decide_eq_false_2 by done. cbn [negb].
      cbn [JsString.truthy].
      destruct (JsString.truthy (gameName data));
        by rewrite <- ?app_assoc, ?app_nil_r.
    + cbn [default]. rewrite bool_decide_eq_true_2 by done. cbn [negb].
      cbn [JsString.truthy].
      destruct (JsString.truthy (gameName data));
        by rewrite <- ?app_assoc, ?app_nil_r.
  - intros E. unfold stateNames, stateColors in *.
    repeat match type of E with
      | context [match ?x with _ => _ end] => destruct x; try discriminate E
      end; done.
Qed.

End Rendering.

(** ** The further statements at the sample deployment *)

Section Scenes.

Import DatabaseManager SteamDiscordBot SteamCommand.

Lemma linkUser_displaces_holder_witness :
  let db' := linkUser Sample.seen (js "u2") Sample.alice 9 in
  getUserMapping db' (js "u1") = None
  ∧ (UserMapping.discord_id <$> getMappingBySteamId db' Sample.alice)
    = Some (js "u2").
Proof.
  apply (linkUser_displaces_holder Sample.seen (js "u2") Sample.alice 9
           (Sample.link (js "u1") Sample.alice)).
  - split; apply NoDup_singleton.
  - apply list_elem_of_here.
  - reflexivity.
  - discriminate.
Defined.

Lemma unlinkUser_removes_only_that_link_witness :
  getUserMapping (unlinkUser Sample.seen (js "u2")) (js "u1")
  = Some (Sample.link (js "u1") Sample.alice)
  ∧ unlinkUser Sample.seen (js "u2") = Sample.seen.
Proof.
  destruct (unlinkUser_removes_only_that_link Sample.seen (js "u2"))
    as (_ & Hother & _ & Hsame).
  split.
  - exact (Hother (js "u1") ltac:(discriminate)).
  - exact (Hsame eq_refl).
Defined.

Lemma link_then_unlink_restores_witness :
  unlinkUser (linkUser Sample.seen (js "u2") Sample.bob 9) (js "u2")
  = Sample.seen.
Proof.
  apply (link_then_unlink_restores Sample.seen (js "u2") Sample.bob 9);
    reflexivity.
Defined.

Lemma setUpdateChannel_last_write_wins_witness :
  getUpdateChannel (setUpdateChannel Sample.fresh (js "g1") (js "c9") 5)
    (js "g2")
  = Some (Sample.destination (js "g2") (js "c2"))
  ∧ destinations (setUpdateChannel Sample.fresh (js "g1") (js "c9") 5)
    = [js "c2"; js "c9"].
Proof.
  destruct (setUpdateChannel_last_write_wins Sample.fresh (js "g1") (js "c9") 5)
    as (_ & Hother & _ & _ & Hd).
  split.
  - exact (Hother (js "g2") ltac:(discriminate)).
  - exact Hd.
Defined.

Lemma recordUpdate_starts_cooldown_witness :
  canUpdate (recordUpdate Sample.seen Sample.alice 400) Sample.alice 300 699
  = false
  ∧ canUpdate (recordUpdate Sample.seen Sample.alice 400) Sample.bob 300 699
    = true.
Proof.
  destruct (recordUpdate_starts_cooldown Sample.seen Sample.alice 400 300 699)
    as [Hown Hother].
  split.
  - exact Hown.
  - exact (Hother Sample.bob ltac:(discriminate)).
Defined.

Lemma handler_touches_only_its_account_witness :
  let w' := exec (handlePresenceChange Sample.bot (at_time 0) Sample.online)
              (initial Sample.seen) in
  user_mappings (w_db w') = user_mappings Sample.seen
  ∧ rate_limits (w_db w') !! Sample.bob = None.
Proof.
  destruct (handler_touches_only_its_account Sample.bot (at_time 0)
              Sample.online (initial Sample.seen)) as (Hm & _ & Hother).
  split; [exact Hm|].
  exact (proj2 (Hother Sample.bob ltac:(discriminate))).
Defined.

Lemma notifications_spaced_by_cooldown_witness :
  chargedAt Sample.bot Sample.alice
    [(0, Sample.online); (299, Sample.inGame); (300, Sample.away);
     (450, Sample.online)]
    (initial Sample.fresh)
  = [0; 300]
  ∧ spaced 300 None [0; 300].
Proof.
  split; [reflexivity|].
  exact (notifications_spaced_by_cooldown Sample.bot Sample.alice
           [(0, Sample.online); (299, Sample.inGame); (300, Sample.away);
            (450, Sample.online)]
           (initial Sample.fresh)).
Defined.

Lemma unlink_stops_the_pipeline_witness :
  let w1 := exec (handleUnlink (js "u1")) (initial Sample.seen) in
  handlePresenceChange Sample.bot (at_time 500) Sample.inGame w1 = (inr (), w1)
  ∧ getSteamCache (w_db w1) Sample.alice
    = Some (snapshotRow Sample.online 10).
Proof.
  assert (bijective Sample.seen) as Hb by (split; apply NoDup_singleton).
  destruct (unlink_stops_the_pipeline (js "u1") (initial Sample.seen) Hb)
    as (_ & Hdrop & Hcache & _).
  split.
  - exact (Hdrop Sample.bot (at_time 500) Sample.inGame eq_refl).
  - exact (f_equal (λ m : gmap jsstring SteamCache.row, m !! Sample.alice)
             Hcache).
Defined.

Lemma link_needs_a_friend_witness :
  handleLink Sample.steam 7 (js "u2") (js "76561198000000003")
    (initial Sample.seen)
  = (inr (NotFriends Scene.carol), initial Sample.seen).
Proof.
  apply (link_needs_a_friend Sample.steam 7 (js "u2") (js "76561198000000003")
           (initial Sample.seen)).
  change (Scene.carol ∉ ({[ Sample.bob ]} : gset jsstring)).
  intros H%elem_of_singleton. discriminate H.
Defined.

Lemma link_succeeds_and_admits_witness :
  let w' := exec (handleLink Sample.steam 7 (js "u2") (js "76561198000000002"))
              (initial Sample.seen) in
  fst (handleLink Sample.steam 7 (js "u2") (js "76561198000000002")
         (initial Sample.seen))
  = inr (Linked Sample.bob)
  ∧ linked (w_db w') Sample.bob
  ∧ getUserMapping (w_db w') (js "u1")
    = Some (Sample.link (js "u1") Sample.alice).
Proof.
  destruct (link_succeeds_and_admits Sample.steam 7 (js "u2")
              (js "76561198000000002") Sample.bob (initial Sample.seen))
    as (Hr & _ & _ & Hl & Hother).
  - split; apply NoDup_singleton.
  - reflexivity.
  - change (Sample.bob ∈ ({[ Sample.bob ]} : gset jsstring)).
    by apply elem_of_singleton.
  - intros row Hrow%list_elem_of_singleton [E|E]; subst row; discriminate E.
  - split; [exact Hr|]. split; [exact Hl|].
    exact (Hother (js "u1") ltac:(discriminate)).
Defined.

Lemma setchannel_gates_then_delivers_witness :
  let w' := exec (handleSetChannel Scene.pick 5) (initial Sample.fresh) in
  fetches (w_trace (exec (handlePresenceChange Sample.bot (at_time 9)
                            Sample.online) w'))
  = [js "c2"; js "c9"].
Proof.
  refine (proj2 (proj2 (setchannel_gates_then_delivers Scene.pick 5
                          (initial Sample.fresh)))
            eq_refl Sample.bot Sample.discord (at_time 9) Sample.online
            eq_refl _ I eq_refl).
  vm_compute. eauto.
Defined.

Lemma shutdown_runs_once_witness :
  let w1 := exec (onProcessEvent Sample.bot SIGINT) (initial Sample.fresh) in
  shutdownSteps (w_trace (exec (onProcessEvent Sample.bot uncaughtException) w1))
  = [LogOff; ClientDestroy; DbClose; ProcessExit 0].
Proof.
  destruct (shutdown_runs_once Sample.bot SIGINT uncaughtException
              (initial Sample.fresh) eq_refl) as (_ & Hsecond & Hfirst & _).
  exact (eq_trans Hsecond Hfirst).
Defined.

Lemma friend_relationship_updates_one_account_witness :
  SteamManager.isFriend
    (SteamManager.onFriendRelationship Scene.steam Sample.alice
       SteamManager.Blocked) Sample.alice
  = true
  ∧ SteamManager.isFriend
      (SteamManager.onFriendRelationship Scene.steam Sample.alice
         SteamManager.RelNone) Sample.bob
    = true.
Proof.
  split.
  - exact (proj1 (friend_relationship_updates_one_account Scene.steam
                    Sample.alice SteamManager.Blocked)).
  - exact (proj1 (proj2 (friend_relationship_updates_one_account Scene.steam
                           Sample.alice SteamManager.RelNone))
             Sample.bob ltac:(discriminate)).
Defined.


Lemma manual_code_is_used_once_witness :
  ∃ out,
    SteamManager.attempt Sample.totp Scene.manual 0
      [(3, SteamManager.steamGuard None false); (4, SteamManager.loggedOn)]
    = (Scene.manual, SteamManager.Rejected SteamManager.SteamGuardCodeRequired,
       out)
    ∧ SteamManager.codesSubmitted out = [js "R2D2C"].
Proof.
  exact (proj2 (manual_code_is_used_once Sample.totp Scene.manual (js "R2D2C")
                  0 3 None false [(4, SteamManager.loggedOn)]
                  eq_refl eq_refl)).
Defined.

Lemma logger_never_prints_debug_witness :
  Logger.prints (Logger.new (Some (js "debug"))) debug = false
  ∧ Logger.prints (Logger.new (Some (js "warn"))) error = true.
Proof.
  split.
  - exact (proj1 (logger_never_prints_debug (Some (js "debug")))).
  - refine (proj2 (proj2 (proj2 (logger_never_prints_debug (Some (js "warn")))))
              _).
    vm_compute. intros H. repeat (apply elem_of_cons in H as [H|H];
      [discriminate H|]). by apply elem_of_nil in H.
Defined.


Lemma friends_list_warns_per_stale_link_witness :
  linkWarnings
    (w_trace (exec (handleFriendsListLoaded {[ Sample.bob ]})
                (initial Sample.seen)))
  = 1%nat.
Proof.
  exact (proj1 (proj2 (friends_list_warns_per_stale_link {[ Sample.bob ]}
                         (initial Sample.seen)))).
Defined.

Lemma notification_text_witness :
  DiscordManager.color
    (DiscordManager.createPresenceEmbed (Sample.snapshot Sample.alice [] 9 None)
       (Some (DiscordManager.viewOfRow (snapshotRow Sample.online 10))))
  = 0.
Proof.
  exact (proj2 (proj2 (notification_text (Sample.snapshot Sample.alice [] 9 None)
                         (snapshotRow Sample.online 10)))
           eq_refl).
Defined.

Lemma disconnect_skips_logoff_only_witness :
  shutdownSteps
    (w_trace
       (exec (SteamDiscordBot.onProcessEvent
                {| SteamDiscordBot.steamManager :=
                     Some (SteamManager.onDisconnected Sample.steam);
                   SteamDiscordBot.discordManager := Some Sample.discord |}
                SIGTERM)
          (initial Sample.fresh)))
  = [ClientDestroy; DbClose; ProcessExit 0].
Proof.
  exact (proj1 (disconnect_skips_logoff_only
                  {| SteamDiscordBot.steamManager :=
                       Some (SteamManager.onDisconnected Sample.steam);
                     SteamDiscordBot.discordManager := Some Sample.discord |}
                  Sample.steam SIGTERM (initial Sample.fresh)
                  eq_refl eq_refl)).
Defined.

(** A display name of 300 code units: the two channels are fetched, the
    embed is refused, nothing is sent and both deliveries are logged as
    failed. With the usual name the second destination is sent to. *)
Lemma delivery_reports_instead_of_throwing_witness :
  (∃ tr,
     SteamDiscordBot.fanout
       {| SteamDiscordBot.steamManager := None;
          SteamDiscordBot.discordManager := Some Scene.flaky |}
       (DatabaseManager.server_configs Sample.fresh) Scene.verbose None 0%nat
       (initial Sample.fresh)
     = (inr 0%nat, push (initial Sample.fresh) tr)
     ∧ fetches tr = [js "c1"; js "c2"]
     ∧ sends tr = []
     ∧ failuresLogged tr = 2%nat)
  ∧ ∃ tr,
      SteamDiscordBot.fanout
        {| SteamDiscordBot.steamManager := None;
           SteamDiscordBot.discordManager := Some Scene.flaky |}
        (DatabaseManager.server_configs Sample.fresh) Sample.online None 0%nat
        (initial Sample.fresh)
      = (inr 1%nat, push (initial Sample.fresh) tr)
      ∧ sends tr = [(js "c1", Sample.online, None); (js "c2", Sample.online, None)]
      ∧ failuresLogged tr = 1%nat.
Proof.
  split.
  - destruct (delivery_reports_instead_of_throwing
                {| SteamDiscordBot.steamManager := None;
                   SteamDiscordBot.discordManager := Some Scene.flaky |}
                Scene.flaky (DatabaseManager.server_configs Sample.fresh)
                Scene.verbose None 0%nat (initial Sample.fresh) eq_refl)
      as (n & tr & Hrun & Hf & _ & Hs & Hn & Hl).
    assert (n = 0%nat) as -> by (rewrite Hn; reflexivity).
    exists tr. split; [exact Hrun|]. split; [exact Hf|]. split; [exact Hs|].
    rewrite Nat.add_0_r in Hl. exact Hl.
  - destruct (delivery_reports_instead_of_throwing
                {| SteamDiscordBot.steamManager := None;
                   SteamDiscordBot.discordManager := Some Scene.flaky |}
                Scene.flaky (DatabaseManager.server_configs Sample.fresh)
                Sample.online None 0%nat (initial Sample.fresh) eq_refl)
      as (n & tr & Hrun & _ & _ & Hs & Hn & Hl).
    assert (n = 1%nat) as -> by (rewrite Hn; reflexivity).
    exists tr. split; [exact Hrun|]. split; [exact Hs|].
    apply (Nat.add_cancel_r _ _ 1). exact Hl.
Defined.

(** Alice is linked and was in the old cache; the new list has her as
    blocked, so the event warns about her link. *)
Lemma friends_list_event_checks_new_cache_witness :
  let run := SteamManager.onFriendsList Scene.steam
               [(Sample.bob, SteamManager.Friend);
                (Sample.alice, SteamManager.Blocked)]
               (Some handleFriendsListLoaded) in
  SteamManager.isFriend Scene.steam Sample.alice = true
  ∧ linkWarnings (w_trace (exec run (initial Sample.seen))) = 1%nat.
Proof.
  split; [reflexivity|].
  exact (proj1 (proj2 (proj2
           (friends_list_event_checks_new_cache Scene.steam
              [(Sample.bob, SteamManager.Friend);
               (Sample.alice, SteamManager.Blocked)]
              (initial Sample.seen))))).
Defined.

End Scenes.
